(** * ForumHive server: access control, quota and moderation handlers

    A shallow embedding of the Express route handlers of the ForumHive
    server (the full server file, plus the earlier [POST /users] handler of
    [src/index.js]) over an explicit model of the document store, followed
    by the properties of the authorization, quota and moderation layer.

    Modelling conventions.
    - A document is a finite map from field names to values; a collection
      is the list of its documents in insertion order ([findOne],
      [updateOne] and [deleteOne] act on the first match).
    - Field values are the JSON primitives that the handlers compare
      ([null], booleans, integers, strings) and ObjectIds.  An absent field
      is an absent key ([undefined] in the handler).
    - ObjectIds are the 96-bit numbers they denote.  [new ObjectId(x)] is
      modelled on its input: a string of 24 hexadecimal digits is read, any
      other string throws, and an absent value gets an id that the
      constructor makes up (an input of the handler).
    - Numbers are the integers that a double holds exactly or, beyond
      2^53 in magnitude, approximately: [$inc] rounds its sum to the nearest
      double, so an increment by one is lost at 2^53.
    - Writes that the store refuses ([$inc] on a non-numeric field, a
      duplicate client-chosen [_id]) are [None]; a handler without a
      [try]/[catch] around a refused write or a throwing constructor ends in
      [Threw].
    - [jwt.verify] is a parameter of the development. *)

From Stdlib Require Import ZArith NArith Ascii String.
From stdpp Require Import base option list gmap strings.

Open Scope string_scope.
Open Scope list_scope.

(** ** Values and documents *)

Inductive value : Type :=
| VNull
| VBool (b : bool)
| VNum (n : Z)
| VStr (s : string)
| VOid (i : N).

#[global] Instance value_eq_dec : EqDecision value.
Proof. solve_decision. Defined.

Abbreviation doc := (gmap string value).
Abbreviation collection := (list (gmap string value)).

(** JavaScript [!x] on a field that may be absent. *)
Definition truthy (x : option value) : bool :=
  match x with
  | None | Some VNull => false
  | Some (VBool b) => b
  | Some (VNum n) => negb (n =? 0)%Z
  | Some (VStr s) => negb (bool_decide (s = ""))
  | Some (VOid _) => true
  end.

(** JavaScript [x === y].  Primitives compare by content, [undefined] only
    equals [undefined], and an ObjectId is an object: two of them are never the
    same reference in these handlers. *)
Definition strict_eq (x y : option value) : bool :=
  match x, y with
  | Some (VOid _), _ | _, Some (VOid _) => false
  | _, _ => bool_decide (x = y)
  end.

(** Numeric reading of a counter field; [$inc] starts an absent field at 0. *)
Definition num_field (k : string) (d : doc) : Z :=
  match d !! k with
  | Some (VNum n) => n
  | _ => 0%Z
  end.

(** ** The document store *)

(** Equality filter [{ k: q }].  The driver sends [undefined] as [null], and a
    [null] query matches a [null] or missing field. *)
Definition field_matches (q d : option value) : bool :=
  match q with
  | None | Some VNull =>
      match d with
      | None | Some VNull => true
      | Some _ => false
      end
  | Some v => bool_decide (d = Some v)
  end.

Definition by_field (k : string) (q : option value) (d : doc) : bool :=
  field_matches q (d !! k).

Definition by_id (i : N) : doc → bool := by_field "_id" (Some (VOid i)).

Fixpoint findOne (f : doc → bool) (c : collection) : option doc :=
  match c with
  | [] => None
  | d :: c' => if f d then Some d else findOne f c'
  end.

Fixpoint countDocuments (f : doc → bool) (c : collection) : nat :=
  match c with
  | [] => 0
  | d :: c' => if f d then S (countDocuments f c') else countDocuments f c'
  end.

(** [updateOne]: apply the update to the first match; [None] when the update
    operator is refused on that document. *)
Fixpoint updateOne (f : doc → bool) (u : doc → option doc) (c : collection)
  : option collection :=
  match c with
  | [] => Some []
  | d :: c' =>
      if f d then d' ← u d; Some (d' :: c')
      else c'' ← updateOne f u c'; Some (d :: c'')
  end.

Definition matchedCount (f : doc → bool) (c : collection) : nat :=
  if findOne f c is Some _ then 1 else 0.

Fixpoint deleteOne (f : doc → bool) (c : collection) : collection :=
  match c with
  | [] => []
  | d :: c' => if f d then c' else d :: deleteOne f c'
  end.

(** [{ $set: { k: v } }] *)
Definition set_field (k : string) (v : value) (d : doc) : option doc :=
  Some (<[k := v]> d).

(** [{ $set: { k1: v1, k2: v2 } }] *)
Definition set_fields2 (k1 : string) (v1 : value) (k2 : string) (v2 : value)
    (d : doc) : option doc :=
  Some (<[k2 := v2]> (<[k1 := v1]> d)).

(** The nearest double to an integer, ties to the even mantissa.  Integers up
    to 2^53 in magnitude are doubles; beyond, the 53-bit mantissa is scaled by
    a power of two. *)
Definition to_double (z : Z) : Z :=
  if (Z.abs z <=? 2 ^ 53)%Z then z
  else
    let m := (2 ^ (Z.log2 (Z.abs z) - 52))%Z in
    let q := (z / m)%Z in
    let r := (z mod m)%Z in
    if (2 * r <? m)%Z then (q * m)%Z
    else if (m <? 2 * r)%Z then ((q + 1) * m)%Z
    else if Z.even q then (q * m)%Z else ((q + 1) * m)%Z.

(** [{ $inc: { k: n } }]: an absent field is set to [n], a number is added to
    in double arithmetic, and a field that holds a non-number is refused. *)
Definition inc_field (k : string) (n : Z) (d : doc) : option doc :=
  match d !! k with
  | None => Some (<[k := VNum n]> d)
  | Some (VNum m) => Some (<[k := VNum (to_double (m + n))]> d)
  | Some _ => None
  end.

(** [new ObjectId(s)] on a string: 24 hexadecimal digits, or it throws. *)
Definition hex_digit (a : ascii) : option N :=
  let n := N_of_ascii a in
  if ((48 <=? n) && (n <=? 57))%N then Some (n - 48)%N
  else if ((97 <=? n) && (n <=? 102))%N then Some (n - 87)%N
  else if ((65 <=? n) && (n <=? 70))%N then Some (n - 55)%N
  else None.

Fixpoint hex_value (acc : N) (s : string) : option N :=
  match s with
  | EmptyString => Some acc
  | String a s' =>
      match hex_digit a with
      | Some h => hex_value (16 * acc + h)%N s'
      | None => None
      end
  end.

Definition ObjectId (s : string) : option N :=
  if (String.length s =? 24)%nat then hex_value 0 s else None.

(** [new ObjectId(x)] on a body field: [undefined], [null] and numbers give
    an id of the constructor's making ([made]), a string is read as above, a
    boolean throws. *)
Definition ObjectId_of (x : option value) (made : N) : option N :=
  match x with
  | None | Some VNull | Some (VNum _) => Some made
  | Some (VStr s) => ObjectId s
  | Some (VOid i) => Some i
  | Some (VBool _) => None
  end.

Definition oid_of (d : doc) : N :=
  match d !! "_id" with
  | Some (VOid i) => i
  | _ => 0%N
  end.

Fixpoint max_oid (c : collection) : N :=
  match c with
  | [] => 0%N
  | d :: c' => N.max (oid_of d) (max_oid c')
  end.

(** The driver's generated ObjectId: one that no stored document carries. *)
Definition fresh_oid (c : collection) : N := N.succ (max_oid c).

Fixpoint has_id (i : value) (c : collection) : bool :=
  match c with
  | [] => false
  | d :: c' => bool_decide (d !! "_id" = Some i) || has_id i c'
  end.

(** [insertOne]: the driver fills a missing (or [null]) [_id]; the store
    refuses an [_id] that is already present.  Returns [insertedId]. *)
Definition insertOne (d : doc) (c : collection) : option (value * collection) :=
  match d !! "_id" with
  | None | Some VNull =>
      let i := VOid (fresh_oid c) in Some (i, c ++ [<["_id" := i]> d])
  | Some i => if has_id i c then None else Some (i, c ++ [d])
  end.

Record store : Type := Store {
  users : collection;
  posts : collection;
  comments : collection;
  reports : collection;
  payments : collection
}.

Definition set_users (s : store) (c : collection) : store :=
  Store c (posts s) (comments s) (reports s) (payments s).
Definition set_posts (s : store) (c : collection) : store :=
  Store (users s) c (comments s) (reports s) (payments s).
Definition set_comments (s : store) (c : collection) : store :=
  Store (users s) (posts s) c (reports s) (payments s).
Definition set_reports (s : store) (c : collection) : store :=
  Store (users s) (posts s) (comments s) c (payments s).

(** ** Responses *)

Inductive payload : Type :=
| Message (m : string)             (* { message: m } *)
| Error (m : string)               (* { error: m } *)
| ErrorDetail (m : string)         (* { error: m, detail: err.message } *)
| UserSaved (insertedId : value)   (* { message: 'User saved successfully', insertedId } *)
| InsertResult (insertedId : value)
| UpdateResult (matched : nat)
| ModifiedCount (n : nat)          (* { modifiedCount: n } *)
| PostDeleted (deletedCount : nat) (* { success: true, message: 'Post deleted successfully', ...result } *)
| Sorted (key : string) (descending : bool) (docs : collection).

Record response : Type := Response { status : nat; body : payload }.

(** What a handler invocation ends in: a response, a return without any
    response, or a rejected promise. *)
Inductive outcome : Type :=
| Sent (r : response)
| NoResponse
| Threw.

Definition send (p : payload) : outcome := Sent (Response 200 p).
Definition send_status (code : nat) (p : payload) : outcome := Sent (Response code p).

Definition handled : Type := store * outcome.

(** ** Middleware *)

Section Handlers.

(** [jwt.verify(token, JWT_SECRET, cb)]: the decoded payload, or [None] when
    the callback receives an error (bad signature, malformed, expired). *)
Variable jwt_verify : string → option doc.

(** [verifyJWT]: [inr decoded] stands for [req.decoded = decoded; next()]. *)
Definition verifyJWT (token : option string) : response + doc :=
  match token with
  | None | Some "" => inl (Response 401 (Message "Unauthorized access"))
  | Some t =>
      match jwt_verify t with
      | None => inl (Response 403 (Message "Forbidden"))
      | Some decoded => inr decoded
      end
  end.

(** [verifyAdmin]: [None] stands for [next()]. *)
Definition verifyAdmin (s : store) (decoded : doc) : option response :=
  let email := decoded !! "email" in
  if negb (truthy email) then Some (Response 401 (Message "Unauthorized access"))
  else
    match findOne (by_field "email" email) (users s) with
    | None => Some (Response 403 (Message "Admin access only"))
    | Some user =>
        if negb (strict_eq (user !! "role") (Some (VStr "admin")))
        then Some (Response 403 (Message "Admin access only"))
        else None
    end.

(** A route registered as [app.METHOD(path, verifyJWT, handler)]. *)
Definition withJWT (token : option string) (s : store)
    (handler : doc → handled) : handled :=
  match verifyJWT token with
  | inl r => (s, Sent r)
  | inr decoded => handler decoded
  end.

(** A route registered as [app.METHOD(path, verifyJWT, verifyAdmin, handler)]. *)
Definition withAdmin (token : option string) (s : store)
    (handler : doc → handled) : handled :=
  withJWT token s (λ decoded,
    match verifyAdmin s decoded with
    | Some r => (s, Sent r)
    | None => handler decoded
    end).

(** ** Route handlers of the server *)

(** [PATCH /post/vote/:postId]; the query is built, [new ObjectId(postId)]
    included, before [type] is looked at. *)
Definition patch_post_vote (s : store) (postId : string) (type : option value) : handled :=
  match ObjectId postId with
  | None => (s, Threw)
  | Some P =>
      let query := by_id P in
      if strict_eq type (Some (VStr "up")) then
        match updateOne query (inc_field "upVote" 1) (posts s) with
        | Some ps => (set_posts s ps, send (UpdateResult (matchedCount query (posts s))))
        | None => (s, Threw)
        end
      else if strict_eq type (Some (VStr "down")) then
        match updateOne query (inc_field "downVote" 1) (posts s) with
        | Some ps => (set_posts s ps, send (UpdateResult (matchedCount query (posts s))))
        | None => (s, Threw)
        end
      else (s, NoResponse)
  end.

(** [POST /users]; [ip] is [req.ip] and [now] is [new Date().toISOString()]. *)
Definition post_users (s : store) (userData : doc) (ip now : string) : handled :=
  let emailExists := findOne (by_field "email" (userData !! "email")) (users s) in
  let usernameExists := findOne (by_field "username" (userData !! "username")) (users s) in
  if negb (bool_decide (is_Some emailExists)) && bool_decide (is_Some usernameExists)
  then (s, send_status 200 (Error "Username already exists"))
  else if bool_decide (is_Some emailExists) then
    let updatedUserDoc := set_fields2 "lastSignIn" (VStr now) "lastSignInIp" (VStr ip) in
    match updateOne (by_field "email" (userData !! "email")) updatedUserDoc (users s) with
    | Some us => (set_users s us, send_status 200 (Message "Email already exists"))
    | None => (s, send_status 200 (Message "Email already exists"))
    end
  else
    let newUserData := <["lastSignInIp" := VStr ip]> userData in
    match insertOne newUserData (users s) with
    | Some (insertedId, us) => (set_users s us, send_status 201 (UserSaved insertedId))
    | None => (s, send_status 500 (ErrorDetail "Failed to save user"))
    end.

(** [POST /posts], after the ownership and quota checks: insert, then
    decrement the advisory counter. *)
Definition post_posts_insert (s : store) (decodedEmail : option value)
    (postData : doc) : handled :=
  match insertOne postData (posts s) with
  | None => (s, Threw)
  | Some (insertedId, ps) =>
      let s1 := set_posts s ps in
      match updateOne (by_field "email" decodedEmail) (inc_field "postLimit" (-1)) (users s1) with
      | None => (s1, Threw)
      | Some us => (set_users s1 us, send (InsertResult insertedId))
      end
  end.

(** [POST /posts], behind [verifyJWT]. *)
Definition post_posts (s : store) (decoded : doc) (postData : doc) : handled :=
  let decodedEmail := decoded !! "email" in
  if negb (strict_eq decodedEmail (postData !! "authorEmail"))
  then (s, send_status 403 (Message "Forbidden: email mismatch"))
  else
    let postCount := countDocuments (by_field "authorEmail" decodedEmail) (posts s) in
    match findOne (by_field "email" decodedEmail) (users s) with
    | None => (s, send_status 403 (Message "Forbidden: user not found"))
    | Some member =>
        if strict_eq (member !! "memberShip") (Some (VStr "member")) then
          if (10 <? postCount)%nat
          then (s, send_status 403 (Message "Post limit exceeded"))
          else post_posts_insert s decodedEmail postData
        else if strict_eq (member !! "memberShip") (Some (VStr "non-member")) then
          if (5 <? postCount)%nat
          then (s, send_status 403 (Message "Post limit exceeded"))
          else post_posts_insert s decodedEmail postData
        else post_posts_insert s decodedEmail postData
    end.

(** [GET /reports], behind [verifyJWT] and [verifyAdmin]:
    [find().sort({ createdAt: -1 })]. *)
Definition get_reports (s : store) : handled :=
  (s, send (Sorted "createdAt" true (reports s))).

(** [POST /reports]; the body is destructured as
    [{ commentId, ...restReportsData }]. *)
Definition post_reports (s : store) (commentId : N) (restReportsData : doc) : handled :=
  let reportsData := <["commentId" := VOid commentId]> restReportsData in
  let query := by_field "commentId" (reportsData !! "commentId") in
  match findOne query (reports s) with
  | Some _ => (s, send (Message "Report allready have on this comment"))
  | None =>
      (* [!reportsData] is false: it is an object literal *)
      match insertOne reportsData (reports s) with
      | None => (s, Threw)
      | Some (insertedId, rs) => (set_reports s rs, send (InsertResult insertedId))
      end
  end.

(** [PATCH /reports/action], behind [verifyJWT] and [verifyAdmin]; the body is
    destructured as [{ action, reportId, userEmail, commentId }].  The report
    filter is built from [reportId] before the dispatch; [made] gives the ids
    that the three constructor calls make up when handed nothing. *)
Definition patch_reports_action (s : store) (action : option value)
    (reportId userEmail commentId : option value) (made : nat → N) : handled :=
  match ObjectId_of reportId (made 0) with
  | None => (s, Threw)
  | Some R =>
      let reportFilter := by_id R in
      let respond (s' : store) : handled := (s', send (ModifiedCount 1)) in
      if strict_eq action (Some (VStr "ignore")) then
        match updateOne reportFilter (set_field "status" (VStr "resolved")) (reports s) with
        | Some rs => respond (set_reports s rs)
        | None => (s, Threw)
        end
      else if strict_eq action (Some (VStr "warn")) then
        match updateOne (by_field "email" userEmail) (set_field "warning" (VBool true)) (users s) with
        | Some us => respond (set_users s us)
        | None => (s, Threw)
        end
      else if strict_eq action (Some (VStr "delete-comment")) then
        match ObjectId_of commentId (made 1) with
        | None => (s, Threw)
        | Some K =>
            let s1 := set_comments s (deleteOne (by_id K) (comments s)) in
            match ObjectId_of reportId (made 2) with
            | None => (s1, Threw)
            | Some R' => respond (set_reports s1 (deleteOne (by_id R') (reports s1)))
            end
        end
      else if strict_eq action (Some (VStr "block")) then
        match updateOne (by_field "email" userEmail) (set_field "isBlocked" (VBool true)) (users s) with
        | Some us => respond (set_users s us)
        | None => (s, Threw)
        end
      else respond s
  end.

(** [DELETE /posts/:id], behind [verifyJWT]. *)
Definition delete_posts (s : store) (decoded : doc) (postId : string) : handled :=
  let decodedEmail := decoded !! "email" in
  match ObjectId postId with
  | None => (s, Threw)
  | Some P =>
      let query := by_id P in
      match findOne query (posts s) with
      | None => (s, send_status 404 (Message "Post not found"))
      | Some post =>
          if negb (strict_eq (post !! "authorEmail") decodedEmail)
          then (s, send_status 403 (Message "Forbidden: email mismatch"))
          else
            let deletedCount := matchedCount query (posts s) in
            let s1 := set_posts s (deleteOne query (posts s)) in
            match updateOne (by_field "email" decodedEmail) (inc_field "postLimit" 1) (users s1) with
            | None => (s1, Threw)
            | Some us => (set_users s1 us, send (PostDeleted deletedCount))
            end
      end
  end.

(** ** Routes as registered *)

Definition route_post_posts (s : store) (token : option string) (postData : doc) : handled :=
  withJWT token s (λ decoded, post_posts s decoded postData).

Definition route_delete_posts (s : store) (token : option string) (postId : string) : handled :=
  withJWT token s (λ decoded, delete_posts s decoded postId).

Definition route_get_reports (s : store) (token : option string) : handled :=
  withAdmin token s (λ _, get_reports s).

Definition route_patch_reports_action (s : store) (token : option string)
    (action : option value) (reportId userEmail commentId : option value)
    (made : nat → N) : handled :=
  withAdmin token s (λ _, patch_reports_action s action reportId userEmail commentId made).

End Handlers.

(** ** The earlier registration handler ([src/index.js]) *)

Module IndexJs.

(** [POST /users] *)
Definition post_users (s : store) (userData : doc) (ip now : string) : handled :=
  let emailExists := findOne (by_field "email" (userData !! "email")) (users s) in
  let usernameExists := findOne (by_field "username" (userData !! "username")) (users s) in
  if bool_decide (is_Some usernameExists)
  then (s, send_status 409 (Error "Username already exists"))
  else if bool_decide (is_Some emailExists) then
    let updatedUserDoc := set_fields2 "lastSignIn" (VStr now) "lastSignInIp" (VStr ip) in
    match updateOne (by_field "email" (userData !! "email")) updatedUserDoc (users s) with
    | Some us => (set_users s us, send_status 200 (Message "Email already exists"))
    | None => (s, send_status 200 (Message "Email already exists"))
    end
  else
    let newUserData := <["lastSignInIp" := VStr ip]> userData in
    match insertOne newUserData (users s) with
    | Some (insertedId, us) => (set_users s us, send_status 201 (UserSaved insertedId))
    | None => (s, send_status 500 (ErrorDetail "Failed to save user"))
    end.

End IndexJs.

(** ** Observations used in the statements *)

(** The advisory counter of the user record that the handlers reach through
    [{ email }], when there is one. *)
Definition postLimit_of (s : store) (email : option value) : option Z :=
  num_field "postLimit" <$> findOne (by_field "email" email) (users s).

(** The specification's reading of a report's state: a report is open
    unless its status is ["resolved"]. *)
Definition report_open (r : doc) : Prop :=
  r !! "status" ≠ Some (VStr "resolved").

(** The four recognised moderation tags. *)
Definition known_action (action : option value) : Prop :=
  action = Some (VStr "ignore") ∨ action = Some (VStr "warn") ∨
  action = Some (VStr "delete-comment") ∨ action = Some (VStr "block").

(** The projection of a collection on one field. *)
Definition column (k : string) (c : collection) : list (option value) :=
  (λ d : doc, d !! k) <$> c.

(** The tier ceilings as the creation handler tests them: more than 5 posts
    for a ["non-member"], more than 10 for a ["member"]. *)
Definition over_ceiling (member : doc) (postCount : nat) : Prop :=
  (member !! "memberShip" = Some (VStr "non-member") ∧ 5 < postCount) ∨
  (member !! "memberShip" = Some (VStr "member") ∧ 10 < postCount).

Definition quota_exceeded : outcome :=
  send_status 403 (Message "Post limit exceeded").

#[global] Instance report_open_dec (r : doc) : Decision (report_open r).
Proof. unfold report_open. apply _. Defined.

#[global] Instance known_action_dec (action : option value) :
  Decision (known_action action).
Proof. unfold known_action. apply _. Defined.

#[global] Instance over_ceiling_dec (member : doc) (postCount : nat) :
  Decision (over_ceiling member postCount).
Proof. unfold over_ceiling. apply _. Defined.

(** The number [$inc] by [n] leaves in field [k]. *)
Definition inc_num (k : string) (n : Z) (d : doc) : Z :=
  match d !! k with
  | Some (VNum m) => to_double (m + n)
  | _ => n
  end.

(** ** Sample data *)

Definition credential (email : string) : doc := {[ "email" := VStr email ]}.

(** A token codec that accepts four tokens. *)
Definition sample_jwt (t : string) : option doc :=
  if bool_decide (t = "alice.jwt") then Some (credential "alice@forum.test")
  else if bool_decide (t = "bob.jwt") then Some (credential "bob@forum.test")
  else if bool_decide (t = "carol.jwt") then Some (credential "carol@forum.test")
  else if bool_decide (t = "root.jwt") then Some (credential "root@forum.test")
  else None.

Definition sample_user (email username tier : string) (limit : Z) : doc :=
  {[ "email" := VStr email; "username" := VStr username;
     "memberShip" := VStr tier; "postLimit" := VNum limit ]}.

Definition sample_post (i : N) (author : string) : doc :=
  {[ "_id" := VOid i; "authorEmail" := VStr author;
     "upVote" := VNum 0; "downVote" := VNum 0 ]}.

Definition alice : doc := sample_user "alice@forum.test" "alice" "non-member" 5.
Definition bob : doc := sample_user "bob@forum.test" "bob" "member" 10.
(** A record that was registered without a membership tier. *)
Definition carol : doc :=
  {[ "email" := VStr "carol@forum.test"; "username" := VStr "carol" ]}.
Definition root : doc := <["role" := VStr "admin"]> (sample_user "root@forum.test" "root" "member" 10).

(** [n] posts by one author, with ids [1..n]. *)
Fixpoint posts_by (author : string) (n : nat) : collection :=
  match n with
  | O => []
  | S k => posts_by author k ++ [sample_post (N.of_nat n) author]
  end.

Definition sample_store (ps : collection) : store :=
  Store [alice; bob; carol; root] ps [] [] [].

Definition new_post (author : string) : doc :=
  {[ "authorEmail" := VStr author; "title" := VStr "hello" ]}.

(** A registration body that joins alice's email with bob's username. *)
Definition mixed_registration : doc :=
  {[ "email" := VStr "alice@forum.test"; "username" := VStr "bob" ]}.




(** ** The remaining routes of the server *)

(** [find(query).toArray()], in collection order. *)
Fixpoint find_all (f : doc → bool) (c : collection) : collection :=
  match c with
  | [] => []
  | d :: c' => if f d then d :: find_all f c' else find_all f c'
  end.

(** Bodies sent by the routes that only read. *)
Inductive reply : Type :=
| Plain (p : payload)
| Exists (b : bool)            (* { exists: b } *)
| Document (d : option doc)    (* a stored document, or null *)
| Count (n : nat)              (* { count: n } *)
| Role (r : option value).     (* { role: r } *)

Record answer : Type := Answer { code : nat; content : reply }.

Definition reject (r : response) : answer := Answer (status r) (Plain (body r)).

Section MoreRoutes.

Variable jwt_verify : string → option doc.

(** [GET /users/check-username/:username] *)
Definition get_users_check_username (s : store) (username : string) : answer :=
  let user := findOne (by_field "username" (Some (VStr username))) (users s) in
  Answer 200 (Exists (bool_decide (is_Some user))).

(** [GET /post/:id] *)
Definition get_post (s : store) (id : N) : answer :=
  match findOne (by_id id) (posts s) with
  | None => Answer 404 (Plain (Message "Post not found"))
  | Some post => Answer 200 (Document (Some post))
  end.

(** [GET /posts/count]: [countDocuments()] with no filter. *)
Definition get_posts_count (s : store) : answer :=
  Answer 200 (Count (countDocuments (λ _, true) (posts s))).

(** [GET /comment/:postId] *)
Definition get_comment (s : store) (postId : N) : answer :=
  let query := by_field "postId" (Some (VOid postId)) in
  Answer 200 (Plain (Sorted "createdAt" true (find_all query (comments s)))).

(** [POST /post/comment]; the body is destructured as
    [{ postId, ...restData }] and [now] is [new Date], in epoch milliseconds.
    The document is [{ postId, ...restData, createdAt }]. *)
Definition post_post_comment (s : store) (postId : N) (restData : doc)
    (now : Z) : handled :=
  let commentData :=
    <["createdAt" := VNum now]> (restData ∪ {[ "postId" := VOid postId ]}) in
  match insertOne commentData (comments s) with
  | None => (s, Threw)
  | Some (insertedId, cs) =>
      (set_comments s cs, send_status 201 (InsertResult insertedId))
  end.

(** [GET /posts/user/:email/count], behind [verifyJWT]. *)
Definition get_posts_user_count (s : store) (decoded : doc) (email : string) : answer :=
  let decodedEmail := decoded !! "email" in
  if negb (strict_eq decodedEmail (Some (VStr email)))
  then Answer 403 (Plain (Message "Forbidden: email mismatch"))
  else Answer 200 (Count (countDocuments (by_field "authorEmail" (Some (VStr email))) (posts s))).

Definition route_get_posts_user_count (s : store) (token : option string)
    (email : string) : answer :=
  match verifyJWT jwt_verify token with
  | inl r => reject r
  | inr decoded => get_posts_user_count s decoded email
  end.

(** [GET /user/:email] *)
Definition get_user (s : store) (email : string) : answer :=
  Answer 200 (Document (findOne (by_field "email" (Some (VStr email))) (users s))).

(** [GET /report/:id]: the report on comment [id]. *)
Definition get_report (s : store) (id : N) : answer :=
  Answer 200 (Document (findOne (by_field "commentId" (Some (VOid id))) (reports s))).

(** [GET /role?email=]; [email] is [req.query.email]. *)
Definition get_role (s : store) (email : option string) : answer :=
  match email with
  | None | Some "" => Answer 400 (Plain (Error "Email is required"))
  | Some e =>
      match findOne (by_field "email" (Some (VStr e))) (users s) with
      | None => Answer 404 (Plain (Error "User not found"))
      | Some user => Answer 200 (Role (user !! "role"))
      end
  end.

(** [PATCH /makeAdmin/:id], behind [verifyJWT] and [verifyAdmin]; the
    constructor call is inside the [try]. *)
Definition patch_makeAdmin (s : store) (id : string) : handled :=
  match ObjectId id with
  | None => (s, send_status 500 (Error "Failed to make admin"))
  | Some U =>
      match updateOne (by_id U) (set_field "role" (VStr "admin")) (users s) with
      | Some us => (set_users s us, send (UpdateResult (matchedCount (by_id U) (users s))))
      | None => (s, send_status 500 (Error "Failed to make admin"))
      end
  end.

Definition route_patch_makeAdmin (s : store) (token : option string) (id : string) : handled :=
  withAdmin jwt_verify token s (λ _, patch_makeAdmin s id).

End MoreRoutes.

(** ** Store invariants and relations used in the statements *)

(** At most one document of the collection answers any equality filter on
    field [k] (what a unique index on [k] would enforce). *)
Definition unique_on (k : string) (c : collection) : Prop :=
  ∀ q, (countDocuments (by_field k q) c ≤ 1)%nat.

(** What an equality filter tells apart: [null] and a missing field are one
    key. *)
Definition filter_key (x : option value) : option value :=
  match x with
  | Some VNull => None
  | _ => x
  end.

(** Two documents that agree on every field outside [ks]. *)
Definition agree_except (ks : list string) (d d' : doc) : Prop :=
  ∀ k, k ∉ ks → d !! k = d' !! k.

(** The fields of a user record that no creation or deletion handler reads. *)
Definition moderation_flags : list string := ["isBlocked"; "warning"].

(** The posts after a vote handler has run its [$inc] on counter [k]: the
    update's result, or the collection as it was when the store refuses. *)
Definition voted (k : string) (P : N) (ps : collection) : collection :=
  default ps (updateOne (by_id P) (inc_field k 1) ps).

(** The counters on which adding or taking one is exact. *)
Definition exact_counter (l : Z) : Prop := (- 2 ^ 53 < l < 2 ^ 53)%Z.

(** Field values on which [$inc] by one is exact: absent, or a number within
    the exact range. *)
Definition countable (x : option value) : Prop :=
  x = None ∨ ∃ l, x = Some (VNum l) ∧ exact_counter l.

(** A 24-digit id string for the samples: [oid_text n] reads back as [n]
    for [n] below ten. *)
Definition oid_text (n : nat) : string :=
  "00000000000000000000000" +:+ String (ascii_of_nat (48 + n)) "".

(** ** More sample data *)

Definition sample_comment (i post : N) (text : string) : doc :=
  {[ "_id" := VOid i; "postId" := VOid post; "text" := VStr text;
     "createdAt" := VNum 1000 ]}.

Definition sample_report (i comment : N) : doc :=
  {[ "_id" := VOid i; "commentId" := VOid comment; "reason" := VStr "spam" ]}.

(** Users with ids, two posts by alice, comments on both, one report. *)
Definition forum : store :=
  Store [<["_id" := VOid 101]> alice; <["_id" := VOid 102]> bob;
         <["_id" := VOid 103]> carol; <["_id" := VOid 104]> root]
        (posts_by "alice@forum.test" 2)
        [sample_comment 11 1 "first"; sample_comment 12 2 "second";
         sample_comment 13 1 "third"]
        [sample_report 21 11]
        [].

(** ** Facts about the store operations *)

Lemma strict_eq_true (x y : option value) : strict_eq x y = true → x = y.
Proof.
  unfold strict_eq.
  destruct x as [[]|], y as [[]|]; try discriminate;
    intros H; exact (bool_decide_eq_true_1 _ H).
Qed.

Lemma strict_eq_neq (x y : option value) : x ≠ y → strict_eq x y = false.
Proof.
  intros Hne. destruct (strict_eq x y) eqn:E; [|done].
  by apply strict_eq_true in E.
Qed.

Lemma strict_eq_str (x : option value) (t : string) :
  strict_eq x (Some (VStr t)) = bool_decide (x = Some (VStr t)).
Proof.
  by destruct x as [[]|].
Qed.

Lemma strict_eq_sym (x y : option value) : strict_eq x y = strict_eq y x.
Proof.
  destruct (strict_eq x y) eqn:E.
  - pose proof (strict_eq_true _ _ E) as ->. by rewrite E.
  - destruct (strict_eq y x) eqn:E'; [|done].
    pose proof (strict_eq_true _ _ E') as ->. congruence.
Qed.

(** [findOne] returns the first match: everything before it fails the filter. *)
Lemma findOne_split (f : doc → bool) (c : collection) (d : doc) :
  findOne f c = Some d →
  ∃ pre suf, c = pre ++ d :: suf ∧ findOne f pre = None ∧ f d = true.
Proof.
  induction c as [|x c IH]; simpl; [done|].
  destruct (f x) eqn:Hx.
  - intros [= ->]. by exists [], c.
  - intros H. destruct (IH H) as (pre & suf & -> & Hpre & Hd).
    exists (x :: pre), suf. simpl. by rewrite Hx.
Qed.

Lemma findOne_app (f : doc → bool) (pre c : collection) :
  findOne f pre = None → findOne f (pre ++ c) = findOne f c.
Proof.
  induction pre as [|x pre IH]; simpl; [done|].
  destruct (f x); [done|]. exact IH.
Qed.

Lemma findOne_None_app (f : doc → bool) (c1 c2 : collection) :
  findOne f (c1 ++ c2) = None ↔ findOne f c1 = None ∧ findOne f c2 = None.
Proof.
  induction c1 as [|x c1 IH]; simpl.
  - split; [by intros -> | by intros [_ ?]].
  - destruct (f x); [split; [done | by intros [? _]] | exact IH].
Qed.

Lemma updateOne_app (f : doc → bool) (u : doc → option doc) (pre c : collection) :
  findOne f pre = None →
  updateOne f u (pre ++ c) = c' ← updateOne f u c; Some (pre ++ c').
Proof.
  induction pre as [|x pre IH]; simpl; intros H.
  - by destruct (updateOne f u c).
  - destruct (f x); [done|]. rewrite (IH H).
    by destruct (updateOne f u c).
Qed.

Lemma updateOne_None_found (f : doc → bool) (u : doc → option doc) (c : collection) :
  findOne f c = None → updateOne f u c = Some c.
Proof.
  induction c as [|x c IH]; simpl; [done|].
  destruct (f x); [done|]. intros H. by rewrite (IH H).
Qed.

(** [updateOne] rewrites exactly the document that [findOne] returns. *)
Lemma updateOne_split (f : doc → bool) (u : doc → option doc)
    (pre suf : collection) (d : doc) :
  findOne f pre = None → f d = true →
  updateOne f u (pre ++ d :: suf) = d' ← u d; Some (pre ++ d' :: suf).
Proof.
  intros Hpre Hd. rewrite updateOne_app by done. simpl. rewrite Hd.
  by destruct (u d).
Qed.

Lemma deleteOne_split (f : doc → bool) (pre suf : collection) (d : doc) :
  findOne f pre = None → f d = true →
  deleteOne f (pre ++ d :: suf) = pre ++ suf.
Proof.
  intros Hpre Hd. induction pre as [|x pre IH]; simpl in *.
  - by rewrite Hd.
  - destruct (f x); [done|]. by rewrite IH.
Qed.

Lemma deleteOne_None_found (f : doc → bool) (c : collection) :
  findOne f c = None → deleteOne f c = c.
Proof.
  induction c as [|x c IH]; simpl; [done|].
  destruct (f x); [done|]. intros H. by rewrite (IH H).
Qed.

Lemma insertOne_app (d : doc) (c c' : collection) (i : value) :
  insertOne d c = Some (i, c') → c' = c ++ [<["_id" := i]> d].
Proof.
  unfold insertOne. destruct (d !! "_id") as [v|] eqn:Hid.
  - destruct v; try (destruct (has_id _ c); [done|];
      intros [= <- <-]; by rewrite insert_id).
    by intros [= <- <-].
  - by intros [= <- <-].
Qed.

Lemma insertOne_no_id (d : doc) (c : collection) :
  d !! "_id" = None →
  insertOne d c = Some (VOid (fresh_oid c), c ++ [<["_id" := VOid (fresh_oid c)]> d]).
Proof. unfold insertOne. by intros ->. Qed.

(** ** Ownership on deletion *)

(** C1 as stated fails: a delete request whose id string is not a
    well-formed ObjectId throws in the constructor, before any lookup; no post
    carries that id, yet the answer is not "Post not found". *)
Lemma delete_posts_malformed_id :
  let s := sample_store (posts_by "alice@forum.test" 2) in
  route_delete_posts sample_jwt s (Some "alice.jwt") "not-an-id" = (s, Threw) ∧
  ∀ P, findOne (by_id P) (posts s) = None →
    (route_delete_posts sample_jwt s (Some "alice.jwt") "not-an-id").2
      ≠ send_status 404 (Message "Post not found").
Proof.
  assert (Hrun : route_delete_posts sample_jwt
            (sample_store (posts_by "alice@forum.test" 2)) (Some "alice.jwt") "not-an-id"
            = (sample_store (posts_by "alice@forum.test" 2), Threw)) by reflexivity.
  split; [exact Hrun|]. intros P _. rewrite Hrun. discriminate.
Qed.

(** C1, amended.  A delete request by the authenticated identity [D] on a
    well-formed post id [P]: with no post of that id the answer is 404 "Post
    not found"; with a stored post whose [authorEmail] differs from [D] the
    answer is 403 and the store is untouched; the post is removed when the
    stored [authorEmail] is [D], and the post collection changes in no other
    case.  An id string that is not well-formed makes the constructor throw
    and the store is untouched.  The handler reads the author from the stored
    post: the request body is not among its inputs. *)
Theorem delete_posts_ownership (jwt_verify : string → option doc) (s : store)
    (token : option string) (decoded : doc) (postId : string) :
  verifyJWT jwt_verify token = inr decoded →
  let D := decoded !! "email" in
  let r := route_delete_posts jwt_verify s token postId in
  (ObjectId postId = None → r = (s, Threw)) ∧
  (∀ P, ObjectId postId = Some P →
    (findOne (by_id P) (posts s) = None →
       r = (s, send_status 404 (Message "Post not found"))) ∧
    (∀ post, findOne (by_id P) (posts s) = Some post →
       post !! "authorEmail" ≠ D →
       r = (s, send_status 403 (Message "Forbidden: email mismatch"))) ∧
    (∀ post, findOne (by_id P) (posts s) = Some post →
       strict_eq (post !! "authorEmail") D = true →
       ∃ pre suf, posts s = pre ++ post :: suf ∧ posts r.1 = pre ++ suf) ∧
    (posts r.1 ≠ posts s →
       ∃ post, findOne (by_id P) (posts s) = Some post ∧ post !! "authorEmail" = D)).
Proof.
  intros Hjwt D r. subst r.
  unfold route_delete_posts, withJWT. rewrite Hjwt.
  unfold delete_posts. fold D. split; [by intros ->|].
  intros P ->.
  destruct (findOne (by_id P) (posts s)) as [post|] eqn:Hfind.
  - destruct (strict_eq (post !! "authorEmail") D) eqn:Hown; simpl.
    + assert (Hdel : ∃ pre suf, posts s = pre ++ post :: suf ∧
                deleteOne (by_id P) (posts s) = pre ++ suf).
      { destruct (findOne_split _ _ _ Hfind) as (pre & suf & Hc & Hpre & Hp).
        exists pre, suf. split; [done|]. rewrite Hc. by apply deleteOne_split. }
      repeat split.
      * done.
      * intros post' [= <-] Hne. apply strict_eq_neq in Hne. congruence.
      * intros post' [= <-] _. destruct Hdel as (pre & suf & Hc & Hd).
        exists pre, suf. split; [done|].
        by destruct (updateOne _ _ _).
      * intros _. exists post. split; [done|]. by apply strict_eq_true.
    + repeat split; try done.
      intros post' [= <-]. congruence.
  - repeat split; try done.
Qed.

Lemma delete_posts_ownership_witness :
  ∃ pre suf, posts (sample_store (posts_by "alice@forum.test" 2)) =
               pre ++ sample_post 1 "alice@forum.test" :: suf ∧
    posts (route_delete_posts sample_jwt
             (sample_store (posts_by "alice@forum.test" 2)) (Some "alice.jwt")
             (oid_text 1)).1
      = pre ++ suf.
Proof.
  destruct (delete_posts_ownership sample_jwt
              (sample_store (posts_by "alice@forum.test" 2)) (Some "alice.jwt")
              (credential "alice@forum.test") (oid_text 1) eq_refl) as [_ Hok].
  destruct (Hok 1%N eq_refl) as (_ & _ & Hdel & _).
  apply Hdel; reflexivity.
Defined.

(** ** Tier quota on creation *)

(** C2. An authenticated creation request whose declared author is the acting
    identity is answered 403 "Post limit exceeded" when the author's record is
    a ["non-member"] with more than 5 posts or a ["member"] with more than 10;
    the store is returned as it was: no post inserted, no counter touched. *)
Theorem post_posts_quota (jwt_verify : string → option doc) (s : store)
    (token : option string) (decoded postData member : doc) :
  verifyJWT jwt_verify token = inr decoded →
  strict_eq (decoded !! "email") (postData !! "authorEmail") = true →
  findOne (by_field "email" (decoded !! "email")) (users s) = Some member →
  over_ceiling member
    (countDocuments (by_field "authorEmail" (decoded !! "email")) (posts s)) →
  route_post_posts jwt_verify s token postData = (s, quota_exceeded).
Proof.
  intros Hjwt Hown Hmember Hover.
  unfold route_post_posts, withJWT. rewrite Hjwt.
  unfold post_posts. rewrite Hown, Hmember. simpl.
  destruct Hover as [[-> Hcount] | [-> Hcount]]; simpl.
  - apply Nat.ltb_lt in Hcount. by rewrite Hcount.
  - apply Nat.ltb_lt in Hcount. by rewrite Hcount.
Qed.

(** The 7th attempt of a non-member who has 6 posts. *)
Lemma post_posts_quota_witness :
  route_post_posts sample_jwt (sample_store (posts_by "alice@forum.test" 6))
    (Some "alice.jwt") (new_post "alice@forum.test")
  = (sample_store (posts_by "alice@forum.test" 6), quota_exceeded).
Proof.
  apply (post_posts_quota sample_jwt _ _ (credential "alice@forum.test") _ alice).
  - reflexivity.
  - reflexivity.
  - reflexivity.
  - left. split; [reflexivity | vm_compute; lia].
Defined.

(** The 12th attempt of a member who has 11 posts. *)
Lemma post_posts_quota_member_12th :
  route_post_posts sample_jwt (sample_store (posts_by "bob@forum.test" 11))
    (Some "bob.jwt") (new_post "bob@forum.test")
  = (sample_store (posts_by "bob@forum.test" 11), quota_exceeded).
Proof. vm_compute. reflexivity. Qed.

(** The ceilings are strict: the 6th post of a non-member with 5 posts and the
    11th of a member with 10 are accepted. *)
Lemma post_posts_at_ceiling_accepted :
  (route_post_posts sample_jwt (sample_store (posts_by "alice@forum.test" 5))
     (Some "alice.jwt") (new_post "alice@forum.test")).2
    = send (InsertResult (VOid 6)) ∧
  (route_post_posts sample_jwt (sample_store (posts_by "bob@forum.test" 10))
     (Some "bob.jwt") (new_post "bob@forum.test")).2
    = send (InsertResult (VOid 11)).
Proof. split; vm_compute; reflexivity. Qed.

(** C9. When the acting author's record has a [memberShip] that is neither
    ["member"] nor ["non-member"] (an absent field included), the handler
    compares the post count with no ceiling: whatever the count, it never
    answers "Post limit exceeded" and goes on to [insertOne].  The submitted
    post is appended whenever the store takes the document, which it always
    does for a body without an [_id] of its own. *)
Theorem post_posts_untiered_unchecked (jwt_verify : string → option doc)
    (s : store) (token : option string) (decoded postData member : doc) :
  verifyJWT jwt_verify token = inr decoded →
  strict_eq (decoded !! "email") (postData !! "authorEmail") = true →
  findOne (by_field "email" (decoded !! "email")) (users s) = Some member →
  member !! "memberShip" ≠ Some (VStr "member") →
  member !! "memberShip" ≠ Some (VStr "non-member") →
  let r := route_post_posts jwt_verify s token postData in
  r.2 ≠ quota_exceeded ∧
  (∀ insertedId ps, insertOne postData (posts s) = Some (insertedId, ps) →
     posts r.1 = posts s ++ [<["_id" := insertedId]> postData]) ∧
  (postData !! "_id" = None →
     posts r.1 = posts s ++ [<["_id" := VOid (fresh_oid (posts s))]> postData]).
Proof.
  intros Hjwt Hown Hmember Hm Hnm r. subst r.
  unfold route_post_posts, withJWT. rewrite Hjwt.
  unfold post_posts. rewrite Hown, Hmember. simpl.
  rewrite !strict_eq_str, !bool_decide_eq_false_2 by done.
  unfold post_posts_insert.
  assert (Hgen : ∀ r : handled,
            (∀ i ps, insertOne postData (posts s) = Some (i, ps) →
               posts r.1 = posts s ++ [<["_id" := i]> postData]) →
            postData !! "_id" = None →
            posts r.1 = posts s ++ [<["_id" := VOid (fresh_oid (posts s))]> postData]).
  { intros r Hr Hnoid. eapply Hr. by apply insertOne_no_id. }
  destruct (insertOne postData (posts s)) as [[i ps]|] eqn:Hins.
  - assert (posts (set_posts s ps) = posts s ++ [<["_id" := i]> postData]) as Hps.
    { simpl. by apply insertOne_app. }
    destruct (updateOne _ _ (users (set_posts s ps))); simpl;
      (split; [done|]);
      (split; [by intros ? ? [= <- <-] | intros Hnoid]);
      rewrite insertOne_no_id in Hins by done; by injection Hins as <- <-.
  - split; [done|]. split; [by intros ? ?|].
    intros Hnoid. by rewrite insertOne_no_id in Hins.
Qed.

Lemma post_posts_untiered_unchecked_witness :
  let s := sample_store (posts_by "carol@forum.test" 12) in
  let r := route_post_posts sample_jwt s (Some "carol.jwt") (new_post "carol@forum.test") in
  r.2 ≠ quota_exceeded ∧
  posts r.1 = posts s ++
    [<["_id" := VOid (fresh_oid (posts s))]> (new_post "carol@forum.test")].
Proof.
  intros s r.
  assert (Hjwt : verifyJWT sample_jwt (Some "carol.jwt")
                 = inr (credential "carol@forum.test")) by reflexivity.
  assert (Hown : strict_eq (credential "carol@forum.test" !! "email")
                   (new_post "carol@forum.test" !! "authorEmail") = true)
    by (vm_compute; reflexivity).
  assert (Hmember : findOne (by_field "email" (credential "carol@forum.test" !! "email"))
                      (users s) = Some carol) by (vm_compute; reflexivity).
  assert (Htier : carol !! "memberShip" = None) by (vm_compute; reflexivity).
  destruct (post_posts_untiered_unchecked sample_jwt s (Some "carol.jwt")
              (credential "carol@forum.test") (new_post "carol@forum.test") carol
              Hjwt Hown Hmember)
    as (Hq & _ & Hins).
  - rewrite Htier. discriminate.
  - rewrite Htier. discriminate.
  - split; [exact Hq|]. apply Hins. vm_compute. reflexivity.
Defined.

(** ** The advisory counter *)

Lemma to_double_exact (z : Z) : (Z.abs z ≤ 2 ^ 53)%Z → to_double z = z.
Proof.
  intros Hz. unfold to_double.
  destruct (Z.leb_spec (Z.abs z) (2 ^ 53)) as [_|Hgt]; [done | lia].
Qed.

Lemma inc_field_spec (k : string) (n : Z) (d d' : doc) :
  inc_field k n d = Some d' →
  d' = <[k := VNum (inc_num k n d)]> d.
Proof.
  unfold inc_field, inc_num.
  destruct (d !! k) as [[]|]; try discriminate; by intros [= <-].
Qed.

Lemma inc_field_num (k : string) (n : Z) (d d' : doc) :
  inc_field k n d = Some d' → num_field k d' = inc_num k n d.
Proof.
  intros H. rewrite (inc_field_spec _ _ _ _ H).
  unfold num_field at 1. by rewrite lookup_insert_eq.
Qed.


Lemma inc_field_other (k k' : string) (n : Z) (d d' : doc) :
  inc_field k n d = Some d' → k ≠ k' → d' !! k' = d !! k'.
Proof.
  intros H Hne. rewrite (inc_field_spec _ _ _ _ H). by rewrite lookup_insert_ne.
Qed.

(** An update that leaves the filtered field alone rewrites the record that
    [findOne] returns, and [findOne] then returns the rewritten record. *)
Lemma updateOne_found (f : doc → bool) (u : doc → option doc)
    (c c' : collection) (m : doc) :
  (∀ d d', u d = Some d' → f d' = f d) →
  findOne f c = Some m → updateOne f u c = Some c' →
  ∃ pre suf m', c = pre ++ m :: suf ∧ c' = pre ++ m' :: suf ∧
    findOne f pre = None ∧ u m = Some m' ∧ findOne f c' = Some m'.
Proof.
  intros Hkeep Hfind Hupd.
  destruct (findOne_split _ _ _ Hfind) as (pre & suf & -> & Hpre & Hm).
  rewrite updateOne_split in Hupd by done.
  destruct (u m) as [m'|] eqn:Hu; [|done]. injection Hupd as <-.
  exists pre, suf, m'. repeat split; try done.
  rewrite findOne_app by done. simpl. by rewrite (Hkeep _ _ Hu), Hm.
Qed.

Lemma inc_postLimit_keeps_email (e : option value) (n : Z) (d d' : doc) :
  inc_field "postLimit" n d = Some d' → by_field "email" e d' = by_field "email" e d.
Proof.
  intros H. unfold by_field. by rewrite (inc_field_other _ "email" _ _ _ H).
Qed.

(** The effect on the counter of [updateOne({ email }, { $inc: { postLimit: n } })]. *)
Lemma postLimit_updateOne (s s' : store) (e : option value) (n : Z) :
  updateOne (by_field "email" e) (inc_field "postLimit" n) (users s) = Some (users s') →
  postLimit_of s' e
    = inc_num "postLimit" n <$> findOne (by_field "email" e) (users s).
Proof.
  intros Hupd. unfold postLimit_of.
  destruct (findOne (by_field "email" e) (users s)) as [m|] eqn:Hfind.
  - destruct (updateOne_found _ _ _ _ _ (inc_postLimit_keeps_email e n) Hfind Hupd)
      as (pre & suf & m' & _ & _ & _ & Hinc & ->).
    simpl. by rewrite (inc_field_num _ _ _ _ Hinc).
  - rewrite updateOne_None_found in Hupd by done.
    injection Hupd as <-. by rewrite Hfind.
Qed.

(** The successful path of the creation handler is the insertion followed by
    the decrement. *)
Lemma post_posts_success (s s1 : store) (decoded postData : doc) (i : value) :
  post_posts s decoded postData = (s1, send (InsertResult i)) →
  is_Some (findOne (by_field "email" (decoded !! "email")) (users s)) ∧
  strict_eq (decoded !! "email") (postData !! "authorEmail") = true ∧
  insertOne postData (posts s) = Some (i, posts s1) ∧
  updateOne (by_field "email" (decoded !! "email")) (inc_field "postLimit" (-1)) (users s)
    = Some (users s1).
Proof.
  unfold post_posts.
  destruct (strict_eq (decoded !! "email") (postData !! "authorEmail")); simpl; [|done].
  destruct (findOne _ (users s)) as [member|]; [|done].
  assert (post_posts_insert s (decoded !! "email") postData = (s1, send (InsertResult i)) →
          insertOne postData (posts s) = Some (i, posts s1) ∧
          updateOne (by_field "email" (decoded !! "email"))
            (inc_field "postLimit" (-1)) (users s) = Some (users s1)) as Hins.
  { unfold post_posts_insert.
    destruct (insertOne postData (posts s)) as [[j ps]|]; [|done]. simpl.
    destruct (updateOne _ _ (users s)) as [us|] eqn:Hupd; [|done].
    by intros [= <- <-]. }
  intros H. split; [by eexists|]. split; [done|].
  destruct (strict_eq (member !! "memberShip") (Some (VStr "member"))).
  - destruct (Nat.ltb 10 _); [done | by apply Hins].
  - destruct (strict_eq (member !! "memberShip") (Some (VStr "non-member"))).
    + destruct (Nat.ltb 5 _); [done | by apply Hins].
    + by apply Hins.
Qed.

(** The successful path of the deletion handler. *)
Lemma delete_posts_success (s s2 : store) (decoded : doc) (postId : string) (n : nat) :
  delete_posts s decoded postId = (s2, send (PostDeleted n)) →
  ∃ P post, ObjectId postId = Some P ∧
    findOne (by_id P) (posts s) = Some post ∧
    strict_eq (post !! "authorEmail") (decoded !! "email") = true ∧
    posts s2 = deleteOne (by_id P) (posts s) ∧
    updateOne (by_field "email" (decoded !! "email")) (inc_field "postLimit" 1) (users s)
      = Some (users s2).
Proof.
  unfold delete_posts.
  destruct (ObjectId postId) as [P|] eqn:Hid; [|done].
  destruct (findOne (by_id P) (posts s)) as [post|] eqn:Hfind; [|done].
  destruct (strict_eq (post !! "authorEmail") (decoded !! "email")) eqn:Hown;
    simpl; [|done].
  destruct (updateOne _ _ (users s)) as [us|] eqn:Hupd; [|done].
  intros [= <- <-]. by exists P, post.
Qed.


Lemma delete_posts_increments (s s2 : store) (decoded : doc) (postId : string) (n : nat) :
  delete_posts s decoded postId = (s2, send (PostDeleted n)) →
  postLimit_of s2 (decoded !! "email")
    = inc_num "postLimit" 1 <$> findOne (by_field "email" (decoded !! "email")) (users s).
Proof.
  intros H. apply delete_posts_success in H as (P & post & _ & _ & _ & _ & Hupd).
  by apply (postLimit_updateOne s s2 _ 1).
Qed.

(** A counter within the exact range comes back after a decrement and an
    increment. *)
Lemma decrement_then_increment (m m1 : doc) :
  countable (m !! "postLimit") →
  findOne (λ _, true) [m1] = Some m1 →
  num_field "postLimit" m1 = inc_num "postLimit" (-1) m →
  m1 !! "postLimit" = Some (VNum (num_field "postLimit" m1)) →
  inc_num "postLimit" 1 m1 = num_field "postLimit" m.
Proof.
  intros Hm _ Hnum Hfield. unfold inc_num at 1. rewrite Hfield, Hnum.
  unfold inc_num, num_field.
  destruct Hm as [-> | (l & -> & Hl)]; [by vm_compute|].
  unfold exact_counter in Hl.
  rewrite (to_double_exact (l + -1)) by lia.
  rewrite to_double_exact by lia. lia.
Qed.




(** A generated ObjectId matches no stored document. *)
Lemma by_id_oid_of (j : N) (d : doc) : by_id j d = true → oid_of d = j.
Proof.
  unfold by_id, by_field, field_matches, oid_of.
  intros H. apply bool_decide_eq_true_1 in H. by rewrite H.
Qed.

Lemma max_oid_bound (c pre suf : collection) (d : doc) :
  c = pre ++ d :: suf → (oid_of d ≤ max_oid c)%N.
Proof.
  intros ->. induction pre as [|x pre IH]; simpl; lia.
Qed.

Lemma findOne_fresh (c : collection) : findOne (by_id (fresh_oid c)) c = None.
Proof.
  destruct (findOne (by_id (fresh_oid c)) c) as [d|] eqn:Hfind; [|done].
  destruct (findOne_split _ _ _ Hfind) as (pre & suf & Hc & _ & Hd).
  apply by_id_oid_of in Hd. pose proof (max_oid_bound _ _ _ _ Hc) as Hle.
  unfold fresh_oid in Hd. lia.
Qed.

(** Creating a post (the body carrying no [_id] of its own) and deleting it
    under the text of the returned id: the deletion succeeds, the post
    collection and a counter within the exact range are back where they
    were. *)
Lemma create_then_delete_roundtrip (s s1 : store) (decoded postData m : doc)
    (i : value) (postId : string) :
  postData !! "_id" = None →
  findOne (by_field "email" (decoded !! "email")) (users s) = Some m →
  countable (m !! "postLimit") →
  post_posts s decoded postData = (s1, send (InsertResult i)) →
  ObjectId postId = Some (fresh_oid (posts s)) →
  i = VOid (fresh_oid (posts s)) ∧
  ∃ s2, delete_posts s1 decoded postId = (s2, send (PostDeleted 1)) ∧
    posts s2 = posts s ∧
    postLimit_of s2 (decoded !! "email") = postLimit_of s (decoded !! "email").
Proof.
  intros Hnoid Hm Hcount Hcreate Hid.
  pose proof (post_posts_success _ _ _ _ _ Hcreate) as (_ & Hown & Hins & Hupd).
  rewrite insertOne_no_id in Hins by done. injection Hins as <- Hposts.
  split; [done|].
  set (j := fresh_oid (posts s)) in *.
  set (new := <["_id" := VOid j]> postData) in *.
  destruct (updateOne_found _ _ _ _ _ (inc_postLimit_keeps_email _ (-1)) Hm Hupd)
    as (pre & suf & m' & Hus & Hus1 & Hpre & Hinc & Hm').
  assert (Hnew : by_id j new = true).
  { unfold by_id, by_field, new. rewrite lookup_insert_eq. simpl.
    by apply bool_decide_eq_true_2. }
  assert (Hfind : findOne (by_id j) (posts s1) = Some new).
  { rewrite <- Hposts. rewrite findOne_app by apply findOne_fresh.
    simpl. by rewrite Hnew. }
  assert (Hauthor : strict_eq (new !! "authorEmail") (decoded !! "email") = true).
  { unfold new. rewrite lookup_insert_ne by done. by rewrite strict_eq_sym. }
  assert (Hdel : deleteOne (by_id j) (posts s1) = posts s).
  { rewrite <- Hposts. rewrite deleteOne_split; [apply app_nil_r | apply findOne_fresh | done]. }
  assert (Hfield : m' !! "postLimit" = Some (VNum (num_field "postLimit" m'))).
  { rewrite (inc_field_spec _ _ _ _ Hinc). unfold num_field.
    by rewrite !lookup_insert_eq. }
  assert (∃ m'', inc_field "postLimit" 1 m' = Some m'') as [m'' Hinc'].
  { unfold inc_field. rewrite Hfield. by eexists. }
  assert (Hupd' : updateOne (by_field "email" (decoded !! "email"))
                    (inc_field "postLimit" 1) (users s1) = Some (pre ++ m'' :: suf)).
  { rewrite Hus1. rewrite updateOne_split; [by rewrite Hinc' | done |].
    rewrite (inc_postLimit_keeps_email _ _ _ _ Hinc).
    by destruct (findOne_split _ _ _ Hm) as (? & ? & ? & ? & ?). }
  exists (set_users (set_posts s1 (posts s)) (pre ++ m'' :: suf)).
  assert (Hrun : delete_posts s1 decoded postId
            = (set_users (set_posts s1 (posts s)) (pre ++ m'' :: suf), send (PostDeleted 1))).
  { unfold delete_posts. rewrite Hid, Hfind, Hauthor. simpl.
    rewrite Hupd', Hdel. unfold matchedCount. by rewrite Hfind. }
  split; [exact Hrun|]. split; [done|].
  rewrite (delete_posts_increments _ _ _ _ _ Hrun), Hm'.
  unfold postLimit_of. rewrite Hm. simpl. f_equal.
  apply decrement_then_increment; [done | done | by apply inc_field_num | done].
Qed.

(** ** The admin gate *)

(** C3. The report listing: without a session cookie the answer is 401; with
    a verified token carrying an email claim for which there is no user record,
    or a record whose role is not ["admin"], the answer is 403; the listing is
    produced exactly when the cookie holds a verified token whose email claim
    finds a record with role ["admin"]. *)
Theorem reports_listing_gate (jwt_verify : string → option doc) (s : store)
    (token : option string) :
  let r := route_get_reports jwt_verify s token in
  (token = None → r = (s, send_status 401 (Message "Unauthorized access"))) ∧
  (∀ t decoded, token = Some t → t ≠ "" → jwt_verify t = Some decoded →
     truthy (decoded !! "email") = true →
     (findOne (by_field "email" (decoded !! "email")) (users s) = None ∨
      ∃ user, findOne (by_field "email" (decoded !! "email")) (users s) = Some user ∧
              user !! "role" ≠ Some (VStr "admin")) →
     r = (s, send_status 403 (Message "Admin access only"))) ∧
  (r = get_reports s ↔
     ∃ t decoded user, token = Some t ∧ t ≠ "" ∧ jwt_verify t = Some decoded ∧
       truthy (decoded !! "email") = true ∧
       findOne (by_field "email" (decoded !! "email")) (users s) = Some user ∧
       user !! "role" = Some (VStr "admin")).
Proof.
  intros r. subst r. unfold route_get_reports, withAdmin, withJWT.
  split; [by intros ->|]. split.
  - intros t decoded -> Ht Hjwt Htruthy Hrole.
    unfold verifyJWT. destruct t as [|a t]; [done|]. rewrite Hjwt.
    unfold verifyAdmin. rewrite Htruthy. simpl.
    destruct Hrole as [-> | (user & -> & Hrole)]; [done|].
    by rewrite strict_eq_str, bool_decide_eq_false_2.
  - unfold verifyJWT. destruct token as [[|a t]|]; [split; [done | by intros (?&?&?&[= <-]&?&_)] | | split; [done | by intros (?&?&?&?&_)]].
    destruct (jwt_verify (String a t)) as [decoded|] eqn:Hjwt;
      [| split; [done | intros (?&?&?&[= <-]&_&?&_); congruence]].
    unfold verifyAdmin.
    destruct (truthy (decoded !! "email")) eqn:Htruthy; simpl;
      [| split; [done | intros (?&?&?&[= <-]&_&?&?&_); congruence]].
    destruct (findOne _ (users s)) as [user|] eqn:Hfind;
      [| split; [done | intros (?&?&?&[= <-]&_&?&_&?&_); congruence]].
    rewrite strict_eq_str.
    destruct (decide (user !! "role" = Some (VStr "admin"))) as [Hadmin|Hadmin].
    + rewrite bool_decide_eq_true_2 by done. simpl.
      split; [|done]. intros _. by exists (String a t), decoded, user.
    + rewrite bool_decide_eq_false_2 by done. simpl.
      split; [done|]. intros (?&?&?&[= <-]&_&?&_&?&?). congruence.
Qed.

Lemma reports_listing_gate_witness :
  route_get_reports sample_jwt (sample_store []) None
    = (sample_store [], send_status 401 (Message "Unauthorized access")) ∧
  route_get_reports sample_jwt (sample_store []) (Some "alice.jwt")
    = (sample_store [], send_status 403 (Message "Admin access only")) ∧
  route_get_reports sample_jwt (sample_store []) (Some "root.jwt")
    = get_reports (sample_store []).
Proof.
  split; [|split].
  - by apply (reports_listing_gate sample_jwt (sample_store []) None).
  - apply (reports_listing_gate sample_jwt (sample_store []) (Some "alice.jwt"))
      with (t := "alice.jwt") (decoded := credential "alice@forum.test");
      try reflexivity; [done|].
    right. exists alice. split; [reflexivity | vm_compute; discriminate].
  - apply (reports_listing_gate sample_jwt (sample_store []) (Some "root.jwt")).
    exists "root.jwt", (credential "root@forum.test"), root.
    repeat split; try reflexivity. done.
Defined.

(** ** Moderation actions *)

Lemma unknown_action_dispatch (action : option value) :
  ¬ known_action action →
  strict_eq action (Some (VStr "ignore")) = false ∧
  strict_eq action (Some (VStr "warn")) = false ∧
  strict_eq action (Some (VStr "delete-comment")) = false ∧
  strict_eq action (Some (VStr "block")) = false.
Proof.
  unfold known_action. intros H.
  repeat split; apply strict_eq_neq; intros ->; naive_solver.
Qed.

(** C6 as stated fails: the report filter is built before the dispatch, so
    an admin's request with an unknown tag and a [reportId] that is not a
    well-formed id throws; nothing is modified, but no success is answered. *)
Lemma patch_reports_action_malformed_report_id :
  route_patch_reports_action sample_jwt forum (Some "root.jwt")
    (Some (VStr "escalate")) (Some (VStr "21")) (Some (VStr "alice@forum.test"))
    (Some (VStr (oid_text 1))) (λ _, 0%N)
  = (forum, Threw).
Proof. vm_compute. reflexivity. Qed.

(** C6, amended.  An admin-authorized action request whose tag is none of
    ["ignore"], ["warn"], ["delete-comment"], ["block"] returns the store as
    it was (no report, user or comment touched).  It answers
    [{ modifiedCount: 1 }] with status 200 when [reportId] is absent or a
    well-formed id, and throws without an answer when [reportId] is
    malformed. *)
Theorem patch_reports_action_unknown_tag (jwt_verify : string → option doc)
    (s : store) (token : option string) (decoded : doc)
    (action reportId userEmail commentId : option value) (made : nat → N) :
  verifyJWT jwt_verify token = inr decoded →
  verifyAdmin s decoded = None →
  ¬ known_action action →
  route_patch_reports_action jwt_verify s token action reportId userEmail commentId made
    = (s, if ObjectId_of reportId (made 0) is Some _
          then send (ModifiedCount 1) else Threw).
Proof.
  intros Hjwt Hadmin Hunknown.
  unfold route_patch_reports_action, withAdmin, withJWT. rewrite Hjwt, Hadmin.
  destruct (unknown_action_dispatch _ Hunknown) as (Hi & Hw & Hd & Hb).
  unfold patch_reports_action.
  destruct (ObjectId_of reportId (made 0)); [|done].
  by rewrite Hi, Hw, Hd, Hb.
Qed.

Lemma patch_reports_action_unknown_tag_witness :
  route_patch_reports_action sample_jwt forum (Some "root.jwt")
    (Some (VStr "escalate")) (Some (VStr "000000000000000000000015"))
    (Some (VStr "alice@forum.test")) (Some (VStr "00000000000000000000000b"))
    (λ _, 0%N)
  = (forum, send (ModifiedCount 1)).
Proof.
  apply (patch_reports_action_unknown_tag sample_jwt forum (Some "root.jwt")
           (credential "root@forum.test") (Some (VStr "escalate"))
           (Some (VStr "000000000000000000000015"))).
  - reflexivity.
  - reflexivity.
  - unfold known_action. intros [H|[H|[H|H]]]; discriminate H.
Defined.

(** ** Votes *)

Lemma updateOne_inc_column (f : doc → bool) (k k' : string) (n : Z)
    (c c' : collection) :
  k ≠ k' → updateOne f (inc_field k n) c = Some c' →
  column k' c' = column k' c.
Proof.
  intros Hne. revert c'. induction c as [|d c IH]; simpl; intros c'.
  - by intros [= <-].
  - destruct (f d).
    + destruct (inc_field k n d) as [d'|] eqn:Hinc; [|done].
      intros [= <-]. unfold column. rewrite !fmap_cons.
      by rewrite (inc_field_other _ _ _ _ _ Hinc Hne).
    + destruct (updateOne f (inc_field k n) c) as [c''|]; [|done].
      intros [= <-]. unfold column in *. rewrite !fmap_cons.
      f_equal. by apply IH.
Qed.






(** ** Registration *)

Lemma sign_in_update (s : store) (q : option value) (ip now : string) (u : doc) :
  findOne (by_field "email" q) (users s) = Some u →
  ∃ pre suf u',
    users s = pre ++ u :: suf ∧
    u' !! "lastSignIn" = Some (VStr now) ∧
    u' !! "lastSignInIp" = Some (VStr ip) ∧
    (∀ k, k ≠ "lastSignIn" → k ≠ "lastSignInIp" → u' !! k = u !! k) ∧
    updateOne (by_field "email" q)
      (set_fields2 "lastSignIn" (VStr now) "lastSignInIp" (VStr ip)) (users s)
      = Some (pre ++ u' :: suf).
Proof.
  intros Hfind.
  destruct (findOne_split _ _ _ Hfind) as (pre & suf & Hus & Hpre & Hu).
  exists pre, suf, (<["lastSignInIp" := VStr ip]> (<["lastSignIn" := VStr now]> u)).
  split; [done|]. split; [by rewrite lookup_insert_ne, lookup_insert_eq|].
  split; [by rewrite lookup_insert_eq|]. split.
  - intros k Hk1 Hk2. by rewrite !lookup_insert_ne.
  - rewrite Hus. by rewrite updateOne_split.
Qed.

(** C7. A registration whose email finds an existing record [u] rewrites that
    record in place with [lastSignIn] and [lastSignInIp] set, every other field
    of it and every other record kept, and inserts nothing; the answer is
    200 "Email already exists".  The earlier handler of [src/index.js] does the
    same when the username finds no record. *)
Theorem post_users_known_email (s : store) (userData : doc) (ip now : string)
    (u : doc) :
  findOne (by_field "email" (userData !! "email")) (users s) = Some u →
  ∃ pre suf u',
    users s = pre ++ u :: suf ∧
    u' !! "lastSignIn" = Some (VStr now) ∧
    u' !! "lastSignInIp" = Some (VStr ip) ∧
    (∀ k, k ≠ "lastSignIn" → k ≠ "lastSignInIp" → u' !! k = u !! k) ∧
    post_users s userData ip now
      = (set_users s (pre ++ u' :: suf),
         send_status 200 (Message "Email already exists")) ∧
    (findOne (by_field "username" (userData !! "username")) (users s) = None →
     IndexJs.post_users s userData ip now
       = (set_users s (pre ++ u' :: suf),
          send_status 200 (Message "Email already exists"))).
Proof.
  intros Hfind.
  destruct (sign_in_update s _ ip now u Hfind)
    as (pre & suf & u' & Hus & Hl & Hi & Hframe & Hupd).
  exists pre, suf, u'. repeat (split; [done|]). split.
  - unfold post_users. rewrite Hfind, Hupd.
    rewrite (bool_decide_eq_true_2 (is_Some (Some u))) by by eexists.
    done.
  - intros Hname. unfold IndexJs.post_users. rewrite Hfind, Hname, Hupd.
    rewrite (bool_decide_eq_false_2 (is_Some None)) by by intros [? ?].
    rewrite (bool_decide_eq_true_2 (is_Some (Some u))) by by eexists.
    done.
Qed.

Lemma post_users_known_email_witness :
  ∃ pre suf u',
    users (sample_store []) = pre ++ alice :: suf ∧
    u' !! "lastSignIn" = Some (VStr "2025-07-01T10:00:00.000Z") ∧
    u' !! "lastSignInIp" = Some (VStr "203.0.113.7") ∧
    (∀ k, k ≠ "lastSignIn" → k ≠ "lastSignInIp" → u' !! k = alice !! k) ∧
    post_users (sample_store []) mixed_registration
        "203.0.113.7" "2025-07-01T10:00:00.000Z"
      = (set_users (sample_store []) (pre ++ u' :: suf),
         send_status 200 (Message "Email already exists")) ∧
    (findOne (by_field "username" (mixed_registration !! "username"))
       (users (sample_store [])) = None →
     IndexJs.post_users (sample_store []) mixed_registration
        "203.0.113.7" "2025-07-01T10:00:00.000Z"
       = (set_users (sample_store []) (pre ++ u' :: suf),
          send_status 200 (Message "Email already exists"))).
Proof.
  apply (post_users_known_email (sample_store []) mixed_registration
           "203.0.113.7" "2025-07-01T10:00:00.000Z" alice).
  reflexivity.
Defined.

(** C4 as stated fails on the server: with bob's username and alice's email the
    username is taken, yet the request is treated as alice signing in. *)
Lemma post_users_taken_username_known_email :
  let s := sample_store [] in
  let r := post_users s mixed_registration "203.0.113.7" "2025-07-01T10:00:00.000Z" in
  findOne (by_field "username" (mixed_registration !! "username")) (users s) = Some bob ∧
  r.2 = send_status 200 (Message "Email already exists") ∧
  (∀ code, r.2 ≠ send_status code (Error "Username already exists")) ∧
  column "lastSignIn" (users r.1)
    = [Some (VStr "2025-07-01T10:00:00.000Z"); None; None; None].
Proof.
  intros s r.
  assert (Hout : r.2 = send_status 200 (Message "Email already exists"))
    by (vm_compute; reflexivity).
  split; [vm_compute; reflexivity|]. split; [exact Hout|]. split.
  - intros code. rewrite Hout. discriminate.
  - vm_compute. reflexivity.
Qed.

(** C4, amended.  When the username finds an existing record no user record
    is inserted.  The earlier handler ([src/index.js]) always answers 409
    "Username already exists" and keeps the store.  The server answers
    200 with the error "Username already exists" and keeps the store when the
    email finds no record; when the email finds one, the request is a sign-in
    and the answer is 200 "Email already exists". *)
Theorem post_users_username_taken (s : store) (userData : doc) (ip now : string)
    (taken : doc) :
  findOne (by_field "username" (userData !! "username")) (users s) = Some taken →
  IndexJs.post_users s userData ip now
    = (s, send_status 409 (Error "Username already exists")) ∧
  length (users (post_users s userData ip now).1) = length (users s) ∧
  (findOne (by_field "email" (userData !! "email")) (users s) = None →
     post_users s userData ip now
       = (s, send_status 200 (Error "Username already exists"))) ∧
  (is_Some (findOne (by_field "email" (userData !! "email")) (users s)) →
     (post_users s userData ip now).2
       = send_status 200 (Message "Email already exists")).
Proof.
  intros Hname.
  assert (Htaken : bool_decide (is_Some (Some taken)) = true)
    by (apply bool_decide_eq_true_2; by eexists).
  split; [unfold IndexJs.post_users; by rewrite Hname, Htaken|].
  destruct (findOne (by_field "email" (userData !! "email")) (users s))
    as [u|] eqn:Hemail.
  - destruct (sign_in_update s _ ip now u Hemail)
      as (pre & suf & u' & Hus & _ & _ & _ & Hupd).
    assert (Hrun : post_users s userData ip now
              = (set_users s (pre ++ u' :: suf),
                 send_status 200 (Message "Email already exists"))).
    { unfold post_users. rewrite Hemail, Hname, Hupd.
      rewrite (bool_decide_eq_true_2 (is_Some (Some u))) by by eexists.
      done. }
    rewrite Hrun. simpl. split; [|split; [done|done]].
    rewrite Hus, !length_app. done.
  - assert (Hrun : post_users s userData ip now
              = (s, send_status 200 (Error "Username already exists"))).
    { unfold post_users. rewrite Hemail, Hname, Htaken.
      rewrite (bool_decide_eq_false_2 (is_Some None)) by by intros [? ?].
      done. }
    rewrite Hrun. simpl. split; [done|]. split; [done|]. by intros [? ?].
Qed.

Lemma post_users_username_taken_witness :
  let s := sample_store [] in
  IndexJs.post_users s mixed_registration "203.0.113.7" "2025-07-01T10:00:00.000Z"
    = (s, send_status 409 (Error "Username already exists")) ∧
  length (users (post_users s mixed_registration
                   "203.0.113.7" "2025-07-01T10:00:00.000Z").1) = 4.
Proof.
  intros s.
  destruct (post_users_username_taken s mixed_registration
              "203.0.113.7" "2025-07-01T10:00:00.000Z" bob eq_refl)
    as (Hold & Hlen & _).
  split; [exact Hold | exact Hlen].
Defined.

(** ** Report submission *)




(** The store's side of the condition above: a body that brings an [_id]
    already in use is refused, the handler ends in a rejected promise and no
    report is added. *)
Lemma post_reports_duplicate_id_refused :
  let first := <["_id" := VOid 1]> (<["commentId" := VOid 7]> (∅ : doc)) in
  let s := set_reports (sample_store []) [first] in
  post_reports s 8 {[ "_id" := VOid 1 ]} = (s, Threw).
Proof. vm_compute. reflexivity. Qed.

(** ** Further facts about the store operations *)

Lemma countDocuments_app (f : doc → bool) (c1 c2 : collection) :
  countDocuments f (c1 ++ c2) = countDocuments f c1 + countDocuments f c2.
Proof.
  induction c1 as [|d c1 IH]; simpl; [done|].
  destruct (f d); simpl; by rewrite IH.
Qed.

Lemma countDocuments_zero (f : doc → bool) (c : collection) :
  findOne f c = None ↔ countDocuments f c = 0.
Proof.
  induction c as [|d c IH]; simpl; [done|].
  destruct (f d); [split; discriminate | exact IH].
Qed.

Lemma countDocuments_all (c : collection) :
  countDocuments (λ _, true) c = length c.
Proof. induction c as [|d c IH]; simpl; [done | by rewrite IH]. Qed.

Lemma find_all_app (f : doc → bool) (c1 c2 : collection) :
  find_all f (c1 ++ c2) = find_all f c1 ++ find_all f c2.
Proof.
  induction c1 as [|d c1 IH]; simpl; [done|].
  destruct (f d); simpl; by rewrite IH.
Qed.

(** An operator that keeps what a filter looks at keeps the filter's count. *)
Lemma updateOne_count (f g : doc → bool) (u : doc → option doc) (c c' : collection) :
  (∀ d d', u d = Some d' → g d' = g d) →
  updateOne f u c = Some c' → countDocuments g c' = countDocuments g c.
Proof.
  intros Hkeep. revert c'. induction c as [|d c IH]; simpl; intros c'.
  - by intros [= <-].
  - destruct (f d).
    + destruct (u d) as [d'|] eqn:Hu; [|done]. intros [= <-]. simpl.
      by rewrite (Hkeep _ _ Hu).
    + destruct (updateOne f u c) as [c''|]; [|done]. intros [= <-]. simpl.
      by rewrite (IH c'').
Qed.

Lemma field_matches_id (i : value) (d : doc) :
  d !! "_id" = Some i → i ≠ VNull → by_field "_id" (Some i) d = true.
Proof.
  intros Hd Hi. unfold by_field, field_matches. rewrite Hd.
  destruct i; try done; by apply bool_decide_eq_true_2.
Qed.

Lemma by_field_insert_ne (k k' : string) (q : option value) (v : value) (d : doc) :
  k ≠ k' → by_field k q (<[k' := v]> d) = by_field k q d.
Proof. intros Hne. unfold by_field. by rewrite lookup_insert_ne. Qed.

Lemma set_posts_id (s : store) : set_posts s (posts s) = s.
Proof. by destruct s. Qed.

Lemma set_users_id (s : store) : set_users s (users s) = s.
Proof. by destruct s. Qed.

(** ** Creating and reading posts *)

(** Past the ownership check and with the author's record at hand, the
    creation handler is the ceiling test followed by the insertion. *)
Lemma post_posts_cases (s : store) (decoded postData member : doc) :
  strict_eq (decoded !! "email") (postData !! "authorEmail") = true →
  findOne (by_field "email" (decoded !! "email")) (users s) = Some member →
  post_posts s decoded postData =
    if decide (over_ceiling member
         (countDocuments (by_field "authorEmail" (decoded !! "email")) (posts s)))
    then (s, quota_exceeded)
    else post_posts_insert s (decoded !! "email") postData.
Proof.
  intros Hown Hmember. unfold post_posts. rewrite Hown, Hmember. simpl.
  rewrite !strict_eq_str. unfold over_ceiling.
  set (n := countDocuments _ (posts s)).
  destruct (decide (member !! "memberShip" = Some (VStr "member"))) as [Hm|Hm].
  - rewrite bool_decide_eq_true_2 by done.
    destruct (Nat.ltb_spec 10 n) as [Hn|Hn].
    + rewrite decide_True; [done | by right].
    + rewrite decide_False; [done|]. intros [[? ?]|[_ ?]]; [congruence | lia].
  - rewrite bool_decide_eq_false_2 by done.
    destruct (decide (member !! "memberShip" = Some (VStr "non-member"))) as [Hn|Hn].
    + rewrite bool_decide_eq_true_2 by done.
      destruct (Nat.ltb_spec 5 n) as [Hc|Hc].
      * rewrite decide_True; [done | by left].
      * rewrite decide_False; [done|]. intros [[_ ?]|[? _]]; [lia | congruence].
    + rewrite bool_decide_eq_false_2 by done.
      rewrite decide_False; [done|]. intros [[? _]|[? _]]; congruence.
Qed.

Lemma post_posts_insert_not_quota (s : store) (e : option value) (postData : doc) :
  (post_posts_insert s e postData).2 ≠ quota_exceeded.
Proof.
  unfold post_posts_insert.
  destruct (insertOne postData (posts s)) as [[i ps]|]; [|done].
  by destruct (updateOne _ _ _).
Qed.

(** X1. A creation request whose declared author is not the acting identity,
    or whose acting identity has no user record, is answered 403 and nothing
    is written. *)
Theorem post_posts_refuses_strangers (jwt_verify : string → option doc)
    (s : store) (token : option string) (decoded postData : doc) :
  verifyJWT jwt_verify token = inr decoded →
  let r := route_post_posts jwt_verify s token postData in
  (decoded !! "email" ≠ postData !! "authorEmail" →
     r = (s, send_status 403 (Message "Forbidden: email mismatch"))) ∧
  (strict_eq (decoded !! "email") (postData !! "authorEmail") = true →
   findOne (by_field "email" (decoded !! "email")) (users s) = None →
     r = (s, send_status 403 (Message "Forbidden: user not found"))).
Proof.
  intros Hjwt r. subst r. unfold route_post_posts, withJWT. rewrite Hjwt.
  unfold post_posts. split.
  - intros Hne. by rewrite (strict_eq_neq _ _ Hne).
  - intros -> ->. done.
Qed.

Lemma post_posts_refuses_strangers_witness :
  route_post_posts sample_jwt forum (Some "bob.jwt") (new_post "alice@forum.test")
    = (forum, send_status 403 (Message "Forbidden: email mismatch")).
Proof.
  destruct (post_posts_refuses_strangers sample_jwt forum (Some "bob.jwt")
              (credential "bob@forum.test") (new_post "alice@forum.test") eq_refl)
    as [Hforeign _].
  apply Hforeign. vm_compute. discriminate.
Defined.

(** X2. The count that [GET /posts/user/:email/count] gives an identity for
    its own email is the count the creation handler tests: a creation by that
    identity is answered "Post limit exceeded" exactly when the record is a
    ["non-member"] and the count exceeds 5 or a ["member"] and it exceeds 10. *)
Theorem own_count_decides_quota (jwt_verify : string → option doc) (s : store)
    (token : option string) (decoded postData member : doc) (email : string) :
  verifyJWT jwt_verify token = inr decoded →
  decoded !! "email" = Some (VStr email) →
  postData !! "authorEmail" = Some (VStr email) →
  findOne (by_field "email" (Some (VStr email))) (users s) = Some member →
  ∃ n, route_get_posts_user_count jwt_verify s token email = Answer 200 (Count n) ∧
       ((route_post_posts jwt_verify s token postData).2 = quota_exceeded
        ↔ over_ceiling member n).
Proof.
  intros Hjwt He Ha Hmember.
  exists (countDocuments (by_field "authorEmail" (Some (VStr email))) (posts s)).
  split.
  - unfold route_get_posts_user_count, get_posts_user_count. rewrite Hjwt, He.
    by rewrite strict_eq_str, bool_decide_eq_true_2.
  - unfold route_post_posts, withJWT. rewrite Hjwt.
    rewrite (post_posts_cases s decoded postData member); rewrite He; try done.
    + destruct (decide (over_ceiling member _)) as [Hover|Hover]; [done|].
      split; [|done]. intros Hq. by apply post_posts_insert_not_quota in Hq.
    + by rewrite Ha, strict_eq_str, bool_decide_eq_true_2.
Qed.

Lemma own_count_decides_quota_witness :
  ∃ n, route_get_posts_user_count sample_jwt forum (Some "alice.jwt")
         "alice@forum.test" = Answer 200 (Count n) ∧
       ((route_post_posts sample_jwt forum (Some "alice.jwt")
           (new_post "alice@forum.test")).2 = quota_exceeded
        ↔ over_ceiling (<["_id" := VOid 101]> alice) n).
Proof.
  apply (own_count_decides_quota sample_jwt forum (Some "alice.jwt")
           (credential "alice@forum.test")); reflexivity.
Defined.




(** X4. A post created from a body without an [_id] is served by
    [GET /post/:id] under the returned [insertedId], as submitted plus that
    id, and [GET /posts/count] goes up by one. *)
Theorem created_post_is_served (s s1 : store) (decoded postData : doc) (i : value) :
  postData !! "_id" = None →
  post_posts s decoded postData = (s1, send (InsertResult i)) →
  i = VOid (fresh_oid (posts s)) ∧
  get_post s1 (fresh_oid (posts s)) = Answer 200 (Document (Some (<["_id" := i]> postData))) ∧
  get_posts_count s = Answer 200 (Count (length (posts s))) ∧
  get_posts_count s1 = Answer 200 (Count (S (length (posts s)))).
Proof.
  intros Hnoid Hcreate.
  apply post_posts_success in Hcreate as (_ & _ & Hins & _).
  rewrite insertOne_no_id in Hins by done. injection Hins as <- Hposts.
  split; [done|]. unfold get_post, get_posts_count.
  rewrite <- Hposts, !countDocuments_all, length_app. simpl.
  rewrite findOne_app by apply findOne_fresh. simpl.
  unfold by_id at 1. rewrite field_matches_id; [|by rewrite lookup_insert_eq|done].
  repeat split. f_equal. f_equal. lia.
Qed.

Lemma created_post_is_served_witness :
  let new := new_post "alice@forum.test" in
  let r := post_posts forum (credential "alice@forum.test") new in
  get_post r.1 (fresh_oid (posts forum))
    = Answer 200 (Document (Some (<["_id" := VOid (fresh_oid (posts forum))]> new))) ∧
  get_posts_count r.1 = Answer 200 (Count 3).
Proof.
  intros new r.
  destruct (created_post_is_served forum r.1 (credential "alice@forum.test") new
              (VOid (fresh_oid (posts forum)))) as (_ & Hget & _ & Hcount).
  - reflexivity.
  - vm_compute. reflexivity.
  - split; [exact Hget | exact Hcount].
Defined.

Lemma delete_posts_result (s s2 : store) (decoded : doc) (postId : string) (n : nat) :
  delete_posts s decoded postId = (s2, send (PostDeleted n)) →
  ∃ P post pre suf, ObjectId postId = Some P ∧ posts s = pre ++ post :: suf ∧
    findOne (by_id P) pre = None ∧ by_id P post = true ∧
    strict_eq (post !! "authorEmail") (decoded !! "email") = true ∧
    n = 1 ∧
    updateOne (by_field "email" (decoded !! "email")) (inc_field "postLimit" 1) (users s)
      = Some (users s2) ∧
    s2 = Store (users s2) (pre ++ suf) (comments s) (reports s) (payments s).
Proof.
  unfold delete_posts.
  destruct (ObjectId postId) as [P|] eqn:Hid; [|done].
  destruct (findOne (by_id P) (posts s)) as [post|] eqn:Hfind; [|done].
  destruct (strict_eq (post !! "authorEmail") (decoded !! "email")) eqn:Hown;
    simpl; [|done].
  destruct (updateOne _ _ (users s)) as [us|] eqn:Hupd; [|done].
  unfold matchedCount. rewrite Hfind. intros [= <- <-].
  destruct (findOne_split _ _ _ Hfind) as (pre & suf & Hps & Hpre & Hp).
  exists P, post, pre, suf. repeat split; try done.
  unfold set_users, set_posts. simpl. by rewrite Hps, deleteOne_split.
Qed.

(** X5. After a successful deletion of post [P], with [_id] values unique
    among the posts, [GET /post/P] answers 404 and the post count is one lower;
    the comments and reports are left as they were, so the comments of the
    deleted post are still listed. *)
Theorem deleted_post_is_gone (s s2 : store) (decoded : doc) (postId : string)
    (P : N) (n : nat) :
  delete_posts s decoded postId = (s2, send (PostDeleted n)) →
  ObjectId postId = Some P →
  (countDocuments (by_id P) (posts s) ≤ 1)%nat →
  get_post s2 P = Answer 404 (Plain (Message "Post not found")) ∧
  S (length (posts s2)) = length (posts s) ∧
  get_comment s2 P = get_comment s P ∧
  reports s2 = reports s.
Proof.
  intros Hdel Hid Huniq.
  destruct (delete_posts_result _ _ _ _ _ Hdel)
    as (P' & post & pre & suf & Hid' & Hps & Hpre & Hp & _ & _ & _ & Hs2).
  rewrite Hid in Hid'. injection Hid' as <-.
  rewrite Hps, countDocuments_app in Huniq. simpl in Huniq. rewrite Hp in Huniq.
  assert (Hsuf : findOne (by_id P) suf = None) by (apply countDocuments_zero; lia).
  rewrite Hs2. unfold get_post, get_comment. simpl.
  replace (findOne (by_id P) (pre ++ suf)) with (@None doc)
    by (symmetry; by apply findOne_None_app).
  repeat split; try done.
  rewrite Hps, !length_app. simpl. lia.
Qed.

Lemma deleted_post_is_gone_witness :
  let r := delete_posts forum (credential "alice@forum.test") (oid_text 1) in
  get_post r.1 1 = Answer 404 (Plain (Message "Post not found")) ∧
  S (length (posts r.1)) = length (posts forum) ∧
  get_comment r.1 1 = get_comment forum 1 ∧
  reports r.1 = reports forum.
Proof.
  intros r.
  apply (deleted_post_is_gone forum r.1 (credential "alice@forum.test") (oid_text 1) 1 1).
  - vm_compute. reflexivity.
  - reflexivity.
  - vm_compute. lia.
Defined.

(** ** Votes, beyond the two counters *)

Lemma patch_post_vote_store (s : store) (postId : string) (type : option value) :
  (patch_post_vote s postId type).1 =
    match ObjectId postId with
    | None => s
    | Some P =>
        if strict_eq type (Some (VStr "up")) then set_posts s (voted "upVote" P (posts s))
        else if strict_eq type (Some (VStr "down")) then set_posts s (voted "downVote" P (posts s))
        else s
    end.
Proof.
  unfold patch_post_vote, voted.
  destruct (ObjectId postId) as [P|]; [|done].
  destruct (strict_eq type (Some (VStr "up"))).
  - destruct (updateOne _ _ (posts s)); simpl; [done | by rewrite set_posts_id].
  - destruct (strict_eq type (Some (VStr "down"))); [|done].
    destruct (updateOne _ _ (posts s)); simpl; [done | by rewrite set_posts_id].
Qed.

Lemma voted_column (k k' : string) (P : N) (ps : collection) :
  k ≠ k' → column k' (voted k P ps) = column k' ps.
Proof.
  intros Hne. unfold voted.
  destruct (updateOne (by_id P) (inc_field k 1) ps) as [ps'|] eqn:Hupd; [|done].
  by apply (updateOne_inc_column _ _ _ _ _ _ Hne Hupd).
Qed.

(** X6. Whatever its [type], a vote request leaves users, comments and
    reports alone and keeps every column of the post collection other than
    [upVote] and [downVote]: no post appears or disappears, no id, author or
    content field changes. *)
Theorem vote_touches_only_counters (s : store) (postId : string)
    (type : option value) (k : string) :
  let s' := (patch_post_vote s postId type).1 in
  users s' = users s ∧ comments s' = comments s ∧ reports s' = reports s ∧
  length (posts s') = length (posts s) ∧
  (k ≠ "upVote" → k ≠ "downVote" → column k (posts s') = column k (posts s)).
Proof.
  intros s'. subst s'. rewrite patch_post_vote_store.
  destruct (ObjectId postId) as [P|]; [|done].
  assert (Hlen : ∀ k0, length (voted k0 P (posts s)) = length (posts s)).
  { intros k0. destruct (decide (k0 = "_id")) as [->|Hne].
    - rewrite <- (length_fmap (λ d : doc, d !! "title") (voted _ _ _)).
      rewrite <- (length_fmap (λ d : doc, d !! "title") (posts s)).
      f_equal. by apply (voted_column "_id" "title").
    - rewrite <- (length_fmap (λ d : doc, d !! "_id") (voted _ _ _)).
      rewrite <- (length_fmap (λ d : doc, d !! "_id") (posts s)).
      f_equal. by apply (voted_column k0 "_id"). }
  destruct (strict_eq type (Some (VStr "up"))); simpl.
  - repeat split; [apply Hlen|]. intros Hu _. by apply voted_column.
  - destruct (strict_eq type (Some (VStr "down"))); simpl.
    + repeat split; [apply Hlen|]. intros _ Hd. by apply voted_column.
    + done.
Qed.

Lemma vote_touches_only_counters_witness :
  column "authorEmail" (posts (patch_post_vote forum (oid_text 1) (Some (VStr "up"))).1)
    = column "authorEmail" (posts forum).
Proof.
  destruct (vote_touches_only_counters forum (oid_text 1) (Some (VStr "up")) "authorEmail")
    as (_ & _ & _ & _ & Hcol).
  by apply Hcol.
Defined.

(** X7. An ["up"] or ["down"] vote under a well-formed id that no post carries
    changes nothing and is answered with a matched count of 0; under an id
    string that is not well-formed the handler throws, whatever the [type],
    and changes nothing either. *)
Theorem vote_on_missing_post (s : store) (postId : string) (type : option value) :
  (ObjectId postId = None → patch_post_vote s postId type = (s, Threw)) ∧
  (∀ P, ObjectId postId = Some P →
     findOne (by_id P) (posts s) = None →
     type = Some (VStr "up") ∨ type = Some (VStr "down") →
     patch_post_vote s postId type = (s, send (UpdateResult 0))).
Proof.
  unfold patch_post_vote. split; [by intros ->|].
  intros P -> Hnone Htype. unfold matchedCount.
  rewrite Hnone, !updateOne_None_found, set_posts_id by done.
  by destruct Htype as [-> | ->].
Qed.

Lemma vote_on_missing_post_witness :
  patch_post_vote forum "no-such-post" (Some (VStr "down")) = (forum, Threw) ∧
  patch_post_vote forum (oid_text 9) (Some (VStr "down")) = (forum, send (UpdateResult 0)).
Proof.
  split.
  - by apply (vote_on_missing_post forum "no-such-post").
  - apply (vote_on_missing_post forum (oid_text 9) (Some (VStr "down")) ) with (P := 9%N);
      [reflexivity | reflexivity | by right].
Defined.

Lemma bump_keeps_id (k : string) (P : N) (d d' : doc) :
  k ≠ "_id" → inc_field k 1 d = Some d' → by_id P d' = by_id P d.
Proof.
  intros Hne H. unfold by_id, by_field. by rewrite (inc_field_other _ "_id" _ _ _ H).
Qed.

Lemma voted_split (k : string) (P : N) (pre suf : collection) (d : doc) :
  findOne (by_id P) pre = None → by_id P d = true →
  voted k P (pre ++ d :: suf) = pre ++ default d (inc_field k 1 d) :: suf.
Proof.
  intros Hpre Hd. unfold voted. rewrite updateOne_split by done.
  by destruct (inc_field k 1 d).
Qed.

Lemma bump_commute (k k' : string) (d : doc) :
  k ≠ k' →
  default (default d (inc_field k 1 d)) (inc_field k' 1 (default d (inc_field k 1 d)))
  = default (default d (inc_field k' 1 d)) (inc_field k 1 (default d (inc_field k' 1 d))).
Proof.
  intros Hne. unfold inc_field.
  destruct (d !! k) as [[]|] eqn:Hk, (d !! k') as [[]|] eqn:Hk'; simpl;
    rewrite ?lookup_insert_ne, ?Hk, ?Hk' by done; simpl;
    try done; by rewrite insert_insert_ne.
Qed.

(** X8. An up-vote and a down-vote on the same post commute: the store after
    one and then the other does not depend on the order. *)
Theorem votes_commute (s : store) (postId : string) :
  (patch_post_vote (patch_post_vote s postId (Some (VStr "up"))).1 postId
     (Some (VStr "down"))).1
  = (patch_post_vote (patch_post_vote s postId (Some (VStr "down"))).1 postId
       (Some (VStr "up"))).1.
Proof.
  rewrite !patch_post_vote_store.
  destruct (ObjectId postId) as [P|]; [|done].
  simpl. unfold set_posts. simpl. f_equal.
  destruct (findOne (by_id P) (posts s)) as [d|] eqn:Hfind.
  - destruct (findOne_split _ _ _ Hfind) as (pre & suf & -> & Hpre & Hd).
    rewrite !(voted_split _ _ pre suf d) by done.
    assert (Hkeep : ∀ k, k ≠ "_id" → by_id P (default d (inc_field k 1 d)) = true).
    { intros k Hk. destruct (inc_field k 1 d) as [d'|] eqn:Hinc; simpl; [|done].
      by rewrite (bump_keeps_id _ _ _ _ Hk Hinc). }
    rewrite !voted_split by (done || by apply Hkeep).
    by rewrite (bump_commute "upVote" "downVote").
  - unfold voted. by rewrite !updateOne_None_found.
Qed.

(** ** Registration, looked up again *)

Lemma field_matches_refl (q : option value) : field_matches q q = true.
Proof.
  destruct q as [v|]; [|done].
  destruct v; try done; by apply bool_decide_eq_true_2.
Qed.

(** Two documents that answer one filter answer each other's value. *)
Lemma field_matches_trans (q x y : option value) :
  field_matches q x = true → field_matches q y = true → field_matches x y = true.
Proof.
  unfold field_matches.
  destruct q as [[]|]; intros Hx Hy;
    try (apply bool_decide_eq_true_1 in Hx as ->;
         apply bool_decide_eq_true_1 in Hy as ->;
         by apply bool_decide_eq_true_2).
  - by destruct x as [[]|], y as [[]|].
  - by destruct x as [[]|], y as [[]|].
Qed.

(** The successful path of the registration handler: both lookups found
    nothing and the body, stamped with the address, was inserted. *)
Lemma post_users_created (s s' : store) (userData : doc) (ip now : string) (i : value) :
  post_users s userData ip now = (s', send_status 201 (UserSaved i)) →
  findOne (by_field "email" (userData !! "email")) (users s) = None ∧
  findOne (by_field "username" (userData !! "username")) (users s) = None ∧
  s' = set_users s (users s ++ [<["_id" := i]> (<["lastSignInIp" := VStr ip]> userData)]).
Proof.
  unfold post_users.
  destruct (findOne (by_field "email" _) (users s)) as [u|] eqn:He.
  - rewrite (bool_decide_eq_true_2 (is_Some (Some u))) by by eexists. simpl.
    by destruct (updateOne _ _ _).
  - rewrite (bool_decide_eq_false_2 (is_Some None)) by by intros [? ?]. simpl.
    destruct (findOne (by_field "username" _) (users s)) as [v|] eqn:Hu.
    + by rewrite (bool_decide_eq_true_2 (is_Some (Some v))) by by eexists.
    + rewrite (bool_decide_eq_false_2 (is_Some None)) by by intros [? ?].
      destruct (insertOne _ (users s)) as [[j us]|] eqn:Hins; [|done].
      intros [= <- <-]. by rewrite (insertOne_app _ _ _ _ Hins).
Qed.

(** X9. After a registration answered 201, the username that
    [GET /users/check-username] reported free is reported taken,
    [GET /user/:email] serves the new record (the body plus [lastSignInIp] and
    the generated id), and the same body sent again is a sign-in: it inserts
    nothing and is answered "Email already exists". *)
Theorem registration_then_lookup (s s' : store) (userData : doc)
    (ip now ip' now' email username : string) (i : value) :
  post_users s userData ip now = (s', send_status 201 (UserSaved i)) →
  userData !! "email" = Some (VStr email) →
  userData !! "username" = Some (VStr username) →
  let new := <["_id" := i]> (<["lastSignInIp" := VStr ip]> userData) in
  get_users_check_username s username = Answer 200 (Exists false) ∧
  get_users_check_username s' username = Answer 200 (Exists true) ∧
  get_user s' email = Answer 200 (Document (Some new)) ∧
  (post_users s' userData ip' now').2
    = send_status 200 (Message "Email already exists") ∧
  length (users (post_users s' userData ip' now').1) = length (users s').
Proof.
  intros Hreg Hemail Hname. cbv zeta.
  destruct (post_users_created _ _ _ _ _ _ Hreg) as (He & Hu & ->).
  rewrite Hemail in He. rewrite Hname in Hu.
  set (new := <["_id" := i]> (<["lastSignInIp" := VStr ip]> userData)).
  assert (Hnew_e : by_field "email" (Some (VStr email)) new = true).
  { unfold new. rewrite !by_field_insert_ne by done.
    unfold by_field. rewrite Hemail. apply field_matches_refl. }
  assert (Hnew_u : by_field "username" (Some (VStr username)) new = true).
  { unfold new. rewrite !by_field_insert_ne by done.
    unfold by_field. rewrite Hname. apply field_matches_refl. }
  assert (Hfind : findOne (by_field "email" (Some (VStr email))) (users s ++ [new])
                  = Some new).
  { rewrite findOne_app by done. cbn [findOne]. by rewrite Hnew_e. }
  unfold get_users_check_username, get_user. cbn [users set_users].
  rewrite Hu, Hfind. rewrite (findOne_app _ _ _ Hu). cbn [findOne]. rewrite Hnew_u.
  split; [done|]. split; [done|]. split; [done|].
  unfold post_users. cbn [users set_users]. rewrite Hemail, Hfind.
  rewrite (bool_decide_eq_true_2 (is_Some (Some new))) by by eexists. simpl.
  rewrite updateOne_split by done. simpl.
  split; [done|]. by rewrite !length_app.
Qed.

Lemma registration_then_lookup_witness :
  let body : doc := {[ "email" := VStr "dave@forum.test"; "username" := VStr "dave" ]} in
  let r := post_users forum body "203.0.113.7" "2025-07-01T10:00:00.000Z" in
  get_users_check_username forum "dave" = Answer 200 (Exists false) ∧
  get_users_check_username r.1 "dave" = Answer 200 (Exists true).
Proof.
  intros body r.
  destruct (registration_then_lookup forum r.1 body
              "203.0.113.7" "2025-07-01T10:00:00.000Z"
              "203.0.113.7" "2025-07-02T10:00:00.000Z"
              "dave@forum.test" "dave" (VOid 105))
    as (Hfree & Htaken & _).
  - vm_compute. reflexivity.
  - reflexivity.
  - reflexivity.
  - split; [exact Hfree | exact Htaken].
Defined.

Lemma unique_on_insert (k : string) (c : collection) (d : doc) :
  unique_on k c → findOne (by_field k (d !! k)) c = None → unique_on k (c ++ [d]).
Proof.
  intros Huniq Hfree q. rewrite countDocuments_app. simpl.
  destruct (by_field k q d) eqn:Hd; [|specialize (Huniq q); lia].
  assert (countDocuments (by_field k q) c = 0) as ->; [|done].
  apply countDocuments_zero.
  destruct (findOne (by_field k q) c) as [x|] eqn:Hx; [|done].
  destruct (findOne_split _ _ _ Hx) as (pre & suf & -> & _ & Hqx).
  apply findOne_None_app in Hfree as [_ Hfree]. simpl in Hfree.
  unfold by_field in *.
  by rewrite (field_matches_trans q (d !! k) (x !! k)) in Hfree.
Qed.

Lemma unique_on_update (k : string) (f : doc → bool) (u : doc → option doc)
    (c c' : collection) :
  (∀ d d', u d = Some d' → d' !! k = d !! k) →
  updateOne f u c = Some c' → unique_on k c → unique_on k c'.
Proof.
  intros Hkeep Hupd Huniq q.
  rewrite (updateOne_count f (by_field k q) u c c'); [apply Huniq | | done].
  intros d d' Hu. unfold by_field. by rewrite (Hkeep _ _ Hu).
Qed.

Lemma field_matches_key (q x : option value) :
  field_matches q x = true → filter_key x = filter_key q.
Proof.
  unfold field_matches.
  destruct q as [[]|]; intros H;
    try (by apply bool_decide_eq_true_1 in H as ->);
    by destruct x as [[]|].
Qed.

Lemma countDocuments_key (k : string) (q : option value) (c : collection) :
  filter_key q ∉ filter_key <$> column k c → countDocuments (by_field k q) c = 0.
Proof.
  induction c as [|d c IH]; [done|]. cbn [countDocuments].
  unfold column in *. rewrite !fmap_cons. intros Hnot.
  apply not_elem_of_cons in Hnot as [Hd Hc].
  destruct (by_field k q d) eqn:Hm.
  - apply field_matches_key in Hm. congruence.
  - by apply IH.
Qed.

(** Distinct keys in a column make the collection unique on that field. *)
Lemma unique_on_NoDup (k : string) (c : collection) :
  NoDup (filter_key <$> column k c) → unique_on k c.
Proof.
  intros Hnodup q. induction c as [|d c IH]; [simpl; lia|]. cbn [countDocuments].
  unfold column in *. rewrite !fmap_cons in Hnodup.
  apply NoDup_cons in Hnodup as [Hd Hc].
  destruct (by_field k q d) eqn:Hm.
  - apply field_matches_key in Hm. rewrite Hm in Hd.
    by rewrite (countDocuments_key k q c).
  - etrans; [by apply IH | done].
Qed.

Lemma sign_in_keeps_field (k : string) (ip now : string) (d d' : doc) :
  k ≠ "lastSignIn" → k ≠ "lastSignInIp" →
  set_fields2 "lastSignIn" (VStr now) "lastSignInIp" (VStr ip) d = Some d' →
  d' !! k = d !! k.
Proof. intros H1 H2 [= <-]. by rewrite !lookup_insert_ne. Qed.

Lemma post_users_store_cases (s : store) (userData : doc) (ip now : string) :
  let r := post_users s userData ip now in
  r.1 = s ∨
  (∃ us, r.1 = set_users s us ∧
     updateOne (by_field "email" (userData !! "email"))
       (set_fields2 "lastSignIn" (VStr now) "lastSignInIp" (VStr ip)) (users s) = Some us) ∨
  (∃ i, r = (r.1, send_status 201 (UserSaved i))).
Proof.
  unfold post_users.
  destruct (negb _ && _); [by left|].
  destruct (bool_decide (is_Some _)).
  - destruct (updateOne _ _ (users s)) as [us|] eqn:Hupd; [|by left].
    right. left. by exists us.
  - destruct (insertOne _ (users s)) as [[i us]|]; [|by left].
    right. right. by exists i.
Qed.

(** X10. Registration keeps emails and usernames unique: if no two user
    records answer the same [email] filter, nor the same [username] filter,
    the same holds after [POST /users], whichever branch it takes. *)
Theorem post_users_keeps_unique (s : store) (userData : doc) (ip now : string) :
  unique_on "email" (users s) → unique_on "username" (users s) →
  let s' := (post_users s userData ip now).1 in
  unique_on "email" (users s') ∧ unique_on "username" (users s').
Proof.
  intros He Hu s'. subst s'.
  destruct (post_users_store_cases s userData ip now) as [-> | [(us & -> & Hupd) | [i Hr]]].
  - done.
  - simpl. split; eapply unique_on_update; try exact Hupd; try done;
      intros d d'; by apply sign_in_keeps_field.
  - rewrite Hr in *. destruct (post_users_created _ _ _ _ _ _ Hr) as (Hfe & Hfu & ->).
    simpl. split; apply unique_on_insert; try done;
      by rewrite !lookup_insert_ne.
Qed.

Lemma post_users_keeps_unique_witness :
  let body : doc := {[ "email" := VStr "dave@forum.test"; "username" := VStr "dave" ]} in
  let s' := (post_users forum body "203.0.113.7" "2025-07-01T10:00:00.000Z").1 in
  length (users s') = 5 ∧
  unique_on "email" (users s') ∧ unique_on "username" (users s').
Proof.
  intros body s'. split; [reflexivity|].
  apply (post_users_keeps_unique forum body "203.0.113.7" "2025-07-01T10:00:00.000Z").
  - apply unique_on_NoDup, (bool_decide_unpack _). vm_compute. exact I.
  - apply unique_on_NoDup, (bool_decide_unpack _). vm_compute. exact I.
Defined.

(** ** Reports and moderation actions *)

Lemma findOne_elem (f : doc → bool) (c pre suf : collection) (d : doc) :
  c = pre ++ d :: suf → f d = true → is_Some (findOne f c).
Proof.
  intros -> Hd. induction pre as [|x pre IH]; simpl.
  - rewrite Hd. by eexists.
  - destruct (f x); [by eexists | exact IH].
Qed.

Lemma countDocuments_deleteOne_le (f g : doc → bool) (c : collection) :
  (countDocuments g (deleteOne f c) ≤ countDocuments g c)%nat.
Proof.
  induction c as [|d c IH]; simpl; [done|].
  destruct (f d); simpl; destruct (g d); lia.
Qed.

Lemma post_reports_cases (s : store) (C : N) (rest : doc) :
  post_reports s C rest =
    match findOne (by_field "commentId" (Some (VOid C))) (reports s) with
    | Some _ => (s, send (Message "Report allready have on this comment"))
    | None =>
        match insertOne (<["commentId" := VOid C]> rest) (reports s) with
        | None => (s, Threw)
        | Some (i, rs) => (set_reports s rs, send (InsertResult i))
        end
    end.
Proof. unfold post_reports. by rewrite lookup_insert_eq. Qed.

(** X11. The handlers that write reports keep at most one report per
    comment: if no two reports answer the same [commentId] filter, this still
    holds after a submission and after a moderation action of any tag. *)
Theorem reports_stay_unique (s : store) (C : N) (rest : doc)
    (action reportId userEmail commentId : option value) (made : nat → N) :
  unique_on "commentId" (reports s) →
  unique_on "commentId" (reports (post_reports s C rest).1) ∧
  unique_on "commentId"
    (reports (patch_reports_action s action reportId userEmail commentId made).1).
Proof.
  intros Huniq. split.
  - rewrite post_reports_cases.
    destruct (findOne _ (reports s)) as [r|] eqn:Hfind; [done|].
    destruct (insertOne _ (reports s)) as [[i rs]|] eqn:Hins; [|done].
    simpl. rewrite (insertOne_app _ _ _ _ Hins).
    apply unique_on_insert; [done|].
    by rewrite lookup_insert_ne, lookup_insert_eq.
  - unfold patch_reports_action.
    destruct (ObjectId_of reportId (made 0)) as [R|]; [|done].
    destruct (strict_eq action (Some (VStr "ignore"))).
    { destruct (updateOne _ _ (reports s)) as [rs|] eqn:Hupd; [|done]. simpl.
      eapply unique_on_update; [|exact Hupd|done].
      intros d d' [= <-]. by rewrite lookup_insert_ne. }
    destruct (strict_eq action (Some (VStr "warn"))).
    { by destruct (updateOne _ _ (users s)). }
    destruct (strict_eq action (Some (VStr "delete-comment"))).
    { destruct (ObjectId_of commentId (made 1)) as [K|]; [|done].
      destruct (ObjectId_of reportId (made 2)) as [R'|]; [|done].
      simpl. intros q. etrans; [apply countDocuments_deleteOne_le | apply Huniq]. }
    destruct (strict_eq action (Some (VStr "block"))); [|done].
    by destruct (updateOne _ _ (users s)).
Qed.

Lemma reports_stay_unique_witness :
  length (reports (post_reports forum 12 ∅).1) = 2 ∧
  unique_on "commentId" (reports (post_reports forum 12 ∅).1) ∧
  unique_on "commentId"
    (reports (patch_reports_action forum (Some (VStr "ignore"))
                (Some (VStr "000000000000000000000015")) None None (λ _, 0%N)).1).
Proof.
  split; [reflexivity|].
  apply (reports_stay_unique forum 12 ∅ (Some (VStr "ignore"))
           (Some (VStr "000000000000000000000015")) None None (λ _, 0%N)).
  apply unique_on_NoDup, (bool_decide_unpack _). vm_compute. exact I.
Defined.

(** X12. A report accepted for comment [C] is what [GET /report/C] serves
    afterwards (the submitted fields, [commentId] and the id), where it served
    nothing before. *)
Theorem submitted_report_is_served (s s' : store) (C : N) (rest : doc) (i : value) :
  post_reports s C rest = (s', send (InsertResult i)) →
  get_report s C = Answer 200 (Document None) ∧
  get_report s' C
    = Answer 200 (Document (Some (<["_id" := i]> (<["commentId" := VOid C]> rest)))).
Proof.
  rewrite post_reports_cases.
  destruct (findOne _ (reports s)) as [r|] eqn:Hfind; [done|].
  destruct (insertOne _ (reports s)) as [[j rs]|] eqn:Hins; [|done].
  intros [= <- <-]. unfold get_report. rewrite Hfind. split; [done|].
  simpl. rewrite (insertOne_app _ _ _ _ Hins), findOne_app by done.
  cbn [findOne]. unfold by_field at 1.
  rewrite lookup_insert_ne, lookup_insert_eq by done.
  by rewrite field_matches_refl.
Qed.

Lemma submitted_report_is_served_witness :
  get_report forum 12 = Answer 200 (Document None) ∧
  get_report (post_reports forum 12 ∅).1 12
    = Answer 200 (Document (Some (<["_id" := VOid 22]> (<["commentId" := VOid 12]> ∅)))).
Proof.
  apply (submitted_report_is_served forum (post_reports forum 12 ∅).1 12 ∅ (VOid 22)).
  vm_compute. reflexivity.
Defined.

(** X13. Action ["ignore"] with the well-formed id of an existing report
    sets its status to ["resolved"] in place, all else kept; the report stays
    in the store, so a later submission for the comment it references is still
    answered with the duplicate notice.  With a well-formed (or absent)
    [reportId] that no report carries nothing changes and the answer is still
    [{ modifiedCount: 1 }]; with a malformed [reportId] the handler throws and
    nothing changes. *)
Theorem ignore_resolves_report (s : store)
    (reportId userEmail commentId : option value) (made : nat → N) :
  let r' := patch_reports_action s (Some (VStr "ignore")) reportId userEmail commentId made in
  (ObjectId_of reportId (made 0) = None → r' = (s, Threw)) ∧
  (∀ R, ObjectId_of reportId (made 0) = Some R →
    (findOne (by_id R) (reports s) = None → r' = (s, send (ModifiedCount 1))) ∧
    (∀ r, findOne (by_id R) (reports s) = Some r →
       ∃ pre suf, reports s = pre ++ r :: suf ∧
         r' = (set_reports s (pre ++ <["status" := VStr "resolved"]> r :: suf),
               send (ModifiedCount 1)) ∧
         ¬ report_open (<["status" := VStr "resolved"]> r) ∧
         ∀ C rest, r !! "commentId" = Some (VOid C) →
           post_reports r'.1 C rest
             = (r'.1, send (Message "Report allready have on this comment")))).
Proof.
  intros r'. subst r'. unfold patch_reports_action.
  split; [by intros ->|]. intros R ->. simpl. split.
  - intros Hnone. rewrite updateOne_None_found by done.
    by destruct s.
  - intros r Hfind.
    destruct (findOne_split _ _ _ Hfind) as (pre & suf & Hrs & Hpre & Hr).
    exists pre, suf. split; [done|].
    rewrite Hrs, updateOne_split by done. simpl.
    split; [done|]. split.
    + intros Hopen. apply Hopen. by rewrite lookup_insert_eq.
    + intros C rest HC. rewrite post_reports_cases. simpl.
      destruct (findOne_elem (by_field "commentId" (Some (VOid C)))
                  (pre ++ <["status" := VStr "resolved"]> r :: suf) pre suf
                  (<["status" := VStr "resolved"]> r) eq_refl) as [x ->]; [|done].
      unfold by_field. rewrite lookup_insert_ne, HC by done.
      apply field_matches_refl.
Qed.

Lemma ignore_resolves_report_witness :
  patch_reports_action forum (Some (VStr "ignore")) (Some (VStr "report-21")) None None
      (λ _, 0%N) = (forum, Threw) ∧
  ∃ pre suf, reports forum = pre ++ sample_report 21 11 :: suf ∧
    patch_reports_action forum (Some (VStr "ignore"))
        (Some (VStr "000000000000000000000015")) None None (λ _, 0%N)
      = (set_reports forum
           (pre ++ <["status" := VStr "resolved"]> (sample_report 21 11) :: suf),
         send (ModifiedCount 1)).
Proof.
  split.
  - by apply (ignore_resolves_report forum (Some (VStr "report-21")) None None (λ _, 0%N)).
  - destruct (ignore_resolves_report forum (Some (VStr "000000000000000000000015"))
                None None (λ _, 0%N)) as [_ Hok].
    destruct (Hok 21%N eq_refl) as [_ Hfound].
    destruct (Hfound (sample_report 21 11) eq_refl) as (pre & suf & Hrs & Hrun & _).
    by exists pre, suf.
Defined.

(** X14. Action ["delete-comment"] removes the comment and the report of the
    given ids and nothing else; when reports were unique per comment, the
    comment the removed report referenced has no report afterwards. *)
Theorem delete_comment_removes_both (s : store)
    (reportId userEmail commentId : option value) (made : nat → N)
    (R0 R K : N) (c r : doc) :
  ObjectId_of reportId (made 0) = Some R0 →
  ObjectId_of commentId (made 1) = Some K →
  ObjectId_of reportId (made 2) = Some R →
  findOne (by_id K) (comments s) = Some c →
  findOne (by_id R) (reports s) = Some r →
  let r' := patch_reports_action s (Some (VStr "delete-comment"))
              reportId userEmail commentId made in
  ∃ prec sufc prer sufr,
    comments s = prec ++ c :: sufc ∧ reports s = prer ++ r :: sufr ∧
    r' = (Store (users s) (posts s) (prec ++ sufc) (prer ++ sufr) (payments s),
          send (ModifiedCount 1)) ∧
    (unique_on "commentId" (reports s) →
     ∀ C, r !! "commentId" = Some (VOid C) →
       get_report r'.1 C = Answer 200 (Document None)).
Proof.
  intros HR0 HK HR Hc Hr r'. subst r'.
  destruct (findOne_split _ _ _ Hc) as (prec & sufc & Hcs & Hprec & Hck).
  destruct (findOne_split _ _ _ Hr) as (prer & sufr & Hrs & Hprer & Hrk).
  exists prec, sufc, prer, sufr. split; [done|]. split; [done|].
  assert (Hrun : patch_reports_action s (Some (VStr "delete-comment"))
                   reportId userEmail commentId made
            = (Store (users s) (posts s) (prec ++ sufc) (prer ++ sufr) (payments s),
               send (ModifiedCount 1))).
  { unfold patch_reports_action, set_comments, set_reports. rewrite HR0, HK, HR. simpl.
    rewrite Hcs, Hrs. by rewrite !deleteOne_split. }
  rewrite Hrun. split; [done|].
  intros Huniq C HC. unfold get_report. simpl.
  specialize (Huniq (Some (VOid C))).
  rewrite Hrs, countDocuments_app in Huniq. cbn [countDocuments] in Huniq.
  assert (Hmatch : by_field "commentId" (Some (VOid C)) r = true)
    by (unfold by_field; rewrite HC; apply field_matches_refl).
  rewrite Hmatch in Huniq.
  replace (findOne (by_field "commentId" (Some (VOid C))) (prer ++ sufr))
    with (@None doc); [done|].
  symmetry. apply findOne_None_app. split; apply countDocuments_zero; lia.
Qed.

Lemma delete_comment_removes_both_witness :
  ∃ prec sufc prer sufr,
    comments forum = prec ++ sample_comment 11 1 "first" :: sufc ∧
    reports forum = prer ++ sample_report 21 11 :: sufr ∧
    patch_reports_action forum (Some (VStr "delete-comment"))
        (Some (VStr "000000000000000000000015")) None
        (Some (VStr "00000000000000000000000b")) (λ _, 0%N)
      = (Store (users forum) (posts forum) (prec ++ sufc) (prer ++ sufr) (payments forum),
         send (ModifiedCount 1)).
Proof.
  destruct (delete_comment_removes_both forum
              (Some (VStr "000000000000000000000015")) None
              (Some (VStr "00000000000000000000000b")) (λ _, 0%N) 21 21 11
              (sample_comment 11 1 "first") (sample_report 21 11)
              eq_refl eq_refl eq_refl eq_refl eq_refl)
    as (prec & sufc & prer & sufr & Hcs & Hrs & Hrun & _).
  by exists prec, sufc, prer, sufr.
Defined.

Lemma flag_action (s : store) (q : option value) (flag : string) (u : option doc) :
  findOne (by_field "email" q) (users s) = u →
  match u with
  | None =>
      updateOne (by_field "email" q) (set_field flag (VBool true)) (users s)
        = Some (users s)
  | Some u =>
      ∃ pre suf, users s = pre ++ u :: suf ∧
        findOne (by_field "email" q) pre = None ∧
        updateOne (by_field "email" q) (set_field flag (VBool true)) (users s)
          = Some (pre ++ <[flag := VBool true]> u :: suf)
  end.
Proof.
  intros Hfind. destruct u as [u|].
  - destruct (findOne_split _ _ _ Hfind) as (pre & suf & Hus & Hpre & Hu).
    exists pre, suf. split; [done|]. split; [done|].
    rewrite Hus. by rewrite updateOne_split.
  - by apply updateOne_None_found.
Qed.

(** X15. With a [reportId] that is absent or well-formed, actions ["warn"]
    and ["block"] set [warning], respectively [isBlocked], to [true] on the
    one user record that [{ email: userEmail }] reaches and change nothing
    else; when no record is reached the store is unchanged.  Either way the
    answer is [{ modifiedCount: 1 }].  With a malformed [reportId] the handler
    throws before the dispatch and no flag is set. *)
Theorem warn_and_block_flag_one_user (s : store)
    (reportId userEmail commentId : option value) (made : nat → N) :
  let warn := patch_reports_action s (Some (VStr "warn")) reportId userEmail commentId made in
  let block := patch_reports_action s (Some (VStr "block")) reportId userEmail commentId made in
  (ObjectId_of reportId (made 0) = None → warn = (s, Threw) ∧ block = (s, Threw)) ∧
  (is_Some (ObjectId_of reportId (made 0)) →
    (findOne (by_field "email" userEmail) (users s) = None →
       warn = (s, send (ModifiedCount 1)) ∧ block = (s, send (ModifiedCount 1))) ∧
    (∀ u, findOne (by_field "email" userEmail) (users s) = Some u →
       ∃ pre suf, users s = pre ++ u :: suf ∧
         warn = (set_users s (pre ++ <["warning" := VBool true]> u :: suf),
                 send (ModifiedCount 1)) ∧
         block = (set_users s (pre ++ <["isBlocked" := VBool true]> u :: suf),
                  send (ModifiedCount 1)))).
Proof.
  intros warn block. subst warn block. unfold patch_reports_action.
  split; [by intros ->|]. intros [R ->]. simpl. split.
  - intros Hnone.
    rewrite (flag_action s userEmail "warning" None Hnone).
    rewrite (flag_action s userEmail "isBlocked" None Hnone).
    by rewrite set_users_id.
  - intros u Hfind.
    destruct (flag_action s userEmail "warning" (Some u) Hfind)
      as (pre & suf & Hus & Hpre & Hw).
    exists pre, suf. split; [done|]. rewrite Hw. split; [done|].
    rewrite Hus at 1. rewrite updateOne_split; [done | done |].
    by destruct (findOne_split _ _ _ Hfind) as (? & ? & ? & ? & ?).
Qed.

Lemma warn_and_block_flag_one_user_witness :
  patch_reports_action forum (Some (VStr "block")) (Some (VStr "21"))
      (Some (VStr "bob@forum.test")) None (λ _, 0%N) = (forum, Threw) ∧
  ∃ pre suf, users forum = pre ++ <["_id" := VOid 102]> bob :: suf ∧
    patch_reports_action forum (Some (VStr "block"))
        (Some (VStr "000000000000000000000015")) (Some (VStr "bob@forum.test")) None
        (λ _, 0%N)
      = (set_users forum
           (pre ++ <["isBlocked" := VBool true]> (<["_id" := VOid 102]> bob) :: suf),
         send (ModifiedCount 1)).
Proof.
  split.
  - by apply (warn_and_block_flag_one_user forum (Some (VStr "21"))
                (Some (VStr "bob@forum.test")) None (λ _, 0%N)).
  - destruct (warn_and_block_flag_one_user forum (Some (VStr "000000000000000000000015"))
                (Some (VStr "bob@forum.test")) None (λ _, 0%N)) as [_ Hok].
    destruct Hok as [_ Hfound]; [by eexists|].
    destruct (Hfound (<["_id" := VOid 102]> bob) eq_refl) as (pre & suf & Hus & _ & Hblock).
    by exists pre, suf.
Defined.

(** ** The moderation flags are never read *)

Lemma agree_except_field (ks : list string) (k : string) (q : option value) (d d' : doc) :
  k ∉ ks → agree_except ks d d' → by_field k q d = by_field k q d'.
Proof. intros Hk Hagree. unfold by_field. by rewrite (Hagree k Hk). Qed.

Lemma agree_except_refl (ks : list string) (d : doc) : agree_except ks d d.
Proof. by intros k _. Qed.

Lemma agree_except_insert (ks : list string) (k : string) (v : value) (d : doc) :
  k ∈ ks → agree_except ks d (<[k := v]> d).
Proof.
  intros Hk k' Hk'. rewrite lookup_insert_ne; [done|]. by intros ->.
Qed.

Lemma findOne_agree (ks : list string) (k : string) (q : option value)
    (c c' : collection) :
  k ∉ ks → Forall2 (agree_except ks) c c' →
  option_Forall2 (agree_except ks)
    (findOne (by_field k q) c) (findOne (by_field k q) c').
Proof.
  intros Hk Hcc. induction Hcc as [|d d' c c' Hd Hcc IH]; simpl; [constructor|].
  rewrite <- (agree_except_field ks k q d d' Hk Hd).
  destruct (by_field k q d); [by constructor | exact IH].
Qed.

Lemma inc_field_agree (ks : list string) (k : string) (n : Z) (d d' : doc) :
  k ∉ ks → agree_except ks d d' →
  option_Forall2 (agree_except ks) (inc_field k n d) (inc_field k n d').
Proof.
  intros Hk Hd. unfold inc_field. rewrite <- (Hd k Hk).
  assert (∀ v, agree_except ks (<[k := v]> d) (<[k := v]> d')) as Hins.
  { intros v k' Hk'. destruct (decide (k = k')) as [<-|Hne].
    - by rewrite !lookup_insert_eq.
    - rewrite !lookup_insert_ne by done. by apply Hd. }
  destruct (d !! k) as [[]|]; constructor; apply Hins.
Qed.

Lemma updateOne_agree (ks : list string) (k kf : string) (q : option value) (n : Z)
    (c c' : collection) :
  k ∉ ks → kf ∉ ks → Forall2 (agree_except ks) c c' →
  option_Forall2 (Forall2 (agree_except ks))
    (updateOne (by_field kf q) (inc_field k n) c)
    (updateOne (by_field kf q) (inc_field k n) c').
Proof.
  intros Hk Hkf Hcc. induction Hcc as [|d d' c c' Hd Hcc IH]; simpl.
  - by repeat constructor.
  - rewrite <- (agree_except_field ks kf q d d' Hkf Hd).
    destruct (by_field kf q d).
    + destruct (inc_field_agree ks k n d d' Hk Hd); simpl; by repeat constructor.
    + destruct IH; simpl; by repeat constructor.
Qed.

(** The creation handler reads a user record only through [email],
    [memberShip] and [postLimit]: on stores that differ in the moderation
    flags alone it gives the same outcome and the same posts. *)
Lemma post_posts_ignores_flags (s s' : store) (decoded postData : doc) :
  posts s = posts s' →
  Forall2 (agree_except moderation_flags) (users s) (users s') →
  (post_posts s decoded postData).2 = (post_posts s' decoded postData).2 ∧
  posts (post_posts s decoded postData).1 = posts (post_posts s' decoded postData).1.
Proof.
  intros Hposts Husers.
  assert (Hnot : ∀ k, k ≠ "isBlocked" → k ≠ "warning" → k ∉ moderation_flags).
  { intros k H1 H2 Hin. unfold moderation_flags in Hin.
    apply list_elem_of_In in Hin. simpl in Hin.
    destruct Hin as [<- | [<- | []]]; done. }
  assert (Hins : (post_posts_insert s (decoded !! "email") postData).2
                 = (post_posts_insert s' (decoded !! "email") postData).2 ∧
                 posts (post_posts_insert s (decoded !! "email") postData).1
                 = posts (post_posts_insert s' (decoded !! "email") postData).1).
  { unfold post_posts_insert. rewrite <- Hposts.
    destruct (insertOne postData (posts s)) as [[i ps]|]; [|done]. simpl.
    destruct (updateOne_agree moderation_flags "postLimit" "email"
                (decoded !! "email") (-1) (users s) (users s')) as [us us' _|];
      try done; by apply Hnot. }
  unfold post_posts. rewrite <- Hposts.
  destruct (strict_eq (decoded !! "email") (postData !! "authorEmail")); simpl; [|done].
  destruct (findOne_agree moderation_flags "email" (decoded !! "email")
              (users s) (users s')) as [m m' Hm|]; try done; [by apply Hnot|].
  rewrite <- (Hm "memberShip") by by apply Hnot.
  destruct (strict_eq (m !! "memberShip") (Some (VStr "member"))).
  - by destruct (Nat.ltb 10 _).
  - destruct (strict_eq (m !! "memberShip") (Some (VStr "non-member"))); [|done].
    by destruct (Nat.ltb 5 _).
Qed.

Lemma flag_update_agree (f : doc → bool) (flag : string) (c c' : collection) :
  flag ∈ moderation_flags →
  updateOne f (set_field flag (VBool true)) c = Some c' →
  Forall2 (agree_except moderation_flags) c' c.
Proof.
  intros Hflag. revert c'. induction c as [|d c IH]; simpl; intros c'.
  - intros [= <-]. constructor.
  - destruct (f d).
    + intros [= <-]. constructor.
      * intros k Hk. rewrite lookup_insert_ne; [done|]. by intros ->.
      * apply Forall2_same_length_lookup_2; [done|].
        intros i x y Hx Hy. rewrite Hx in Hy. injection Hy as <-.
        apply agree_except_refl.
    + destruct (updateOne f _ c) as [c''|]; [|done]. intros [= <-].
      constructor; [apply agree_except_refl | by apply IH].
Qed.

(** X16. Warning or blocking a user changes nothing in what [POST /posts]
    does afterwards, for that user or anyone else: same outcome, same posts
    as without the action.  No handler reads [isBlocked] or [warning]. *)
Theorem flags_do_not_gate_posting (s : store)
    (action reportId userEmail commentId : option value) (made : nat → N)
    (decoded postData : doc) :
  action = Some (VStr "warn") ∨ action = Some (VStr "block") →
  let flagged := (patch_reports_action s action reportId userEmail commentId made).1 in
  (post_posts flagged decoded postData).2 = (post_posts s decoded postData).2 ∧
  posts (post_posts flagged decoded postData).1
    = posts (post_posts s decoded postData).1.
Proof.
  intros Haction flagged. subst flagged.
  assert (Hrefl : Forall2 (agree_except moderation_flags) (users s) (users s)).
  { apply Forall2_same_length_lookup_2; [done|].
    intros i x y Hx Hy. rewrite Hx in Hy. injection Hy as <-.
    apply agree_except_refl. }
  apply post_posts_ignores_flags.
  - unfold patch_reports_action.
    destruct (ObjectId_of reportId (made 0)); [|done].
    destruct Haction as [-> | ->]; simpl; by destruct (updateOne _ _ (users s)).
  - unfold patch_reports_action.
    destruct (ObjectId_of reportId (made 0)); [|done].
    destruct Haction as [-> | ->]; simpl;
      destruct (updateOne _ _ (users s)) as [us|] eqn:Hupd; simpl; try done;
      eapply flag_update_agree; try exact Hupd;
      unfold moderation_flags; set_solver.
Qed.

Lemma flags_do_not_gate_posting_witness :
  let blocked := (patch_reports_action forum (Some (VStr "block"))
                    (Some (VStr "000000000000000000000015"))
                    (Some (VStr "alice@forum.test")) None (λ _, 0%N)).1 in
  (post_posts blocked (credential "alice@forum.test") (new_post "alice@forum.test")).2
    = (post_posts forum (credential "alice@forum.test") (new_post "alice@forum.test")).2.
Proof.
  intros blocked.
  destruct (flags_do_not_gate_posting forum (Some (VStr "block"))
              (Some (VStr "000000000000000000000015"))
              (Some (VStr "alice@forum.test")) None (λ _, 0%N)
              (credential "alice@forum.test")
              (new_post "alice@forum.test")) as [Hout _].
  - by right.
  - exact Hout.
Defined.

(** ** The gates, across the guarded routes *)

Lemma verifyAdmin_rejects (s : store) (decoded : doc) :
  (∀ user, findOne (by_field "email" (decoded !! "email")) (users s) = Some user →
     user !! "role" ≠ Some (VStr "admin")) →
  ∃ code, (code = 401 ∨ code = 403) ∧
    ∃ msg, verifyAdmin s decoded = Some (Response code (Message msg)).
Proof.
  intros Hrole. unfold verifyAdmin.
  destruct (truthy (decoded !! "email")); simpl; [|exists 401; eauto].
  exists 403. split; [by right|].
  destruct (findOne _ (users s)) as [user|]; [|eauto].
  rewrite strict_eq_str, bool_decide_eq_false_2 by by apply Hrole.
  simpl. eauto.
Qed.

(** X17. An identity whose user record is missing or has a role other than
    ["admin"] cannot moderate or promote: whatever the action tag and the ids,
    [PATCH /reports/action] and [PATCH /makeAdmin/:id] answer 401 or 403 and
    return the store as it was. *)
Theorem non_admin_cannot_moderate (jwt_verify : string → option doc) (s : store)
    (token : option string) (decoded : doc)
    (action reportId userEmail commentId : option value) (made : nat → N)
    (id : string) :
  verifyJWT jwt_verify token = inr decoded →
  (∀ user, findOne (by_field "email" (decoded !! "email")) (users s) = Some user →
     user !! "role" ≠ Some (VStr "admin")) →
  ∃ code msg, (code = 401 ∨ code = 403) ∧
    route_patch_reports_action jwt_verify s token action reportId userEmail commentId made
      = (s, send_status code (Message msg)) ∧
    route_patch_makeAdmin jwt_verify s token id
      = (s, send_status code (Message msg)).
Proof.
  intros Hjwt Hrole.
  destruct (verifyAdmin_rejects s decoded Hrole) as (code & Hcode & msg & Hadmin).
  exists code, msg. split; [done|].
  unfold route_patch_reports_action, route_patch_makeAdmin, withAdmin, withJWT.
  by rewrite Hjwt, Hadmin.
Qed.

Lemma non_admin_cannot_moderate_witness :
  ∃ code msg, (code = 401 ∨ code = 403) ∧
    route_patch_reports_action sample_jwt forum (Some "bob.jwt")
        (Some (VStr "block")) (Some (VStr "000000000000000000000015"))
        (Some (VStr "alice@forum.test")) None (λ _, 0%N)
      = (forum, send_status code (Message msg)) ∧
    route_patch_makeAdmin sample_jwt forum (Some "bob.jwt") "000000000000000000000066"
      = (forum, send_status code (Message msg)).
Proof.
  apply (non_admin_cannot_moderate sample_jwt forum (Some "bob.jwt")
           (credential "bob@forum.test")).
  - reflexivity.
  - assert (Hbob : findOne (by_field "email" (credential "bob@forum.test" !! "email"))
                     (users forum) = Some (<["_id" := VOid 102]> bob)) by reflexivity.
    intros user Hfind. rewrite Hbob in Hfind. injection Hfind as <-.
    vm_compute. discriminate.
Defined.

(** X18. On the six guarded routes [POST /posts], [DELETE /posts/:id],
    [GET /reports], [PATCH /reports/action], [PATCH /makeAdmin/:id] and
    [GET /posts/user/:email/count]: without a session cookie the answer is
    401, and with a cookie that fails verification it is 403 "Forbidden"; in
    both cases the handler behind the gate does not run and the store is
    returned as it was. *)
Theorem unverified_requests_stop_at_the_gate (jwt_verify : string → option doc)
    (s : store) (token : option string) (postData : doc) (postId id email : string)
    (action reportId userEmail commentId : option value) (made : nat → N) :
  let r := match token with
           | None | Some "" => Response 401 (Message "Unauthorized access")
           | Some _ => Response 403 (Message "Forbidden")
           end in
  (∀ t, token = Some t → t ≠ "" → jwt_verify t = None) →
  route_post_posts jwt_verify s token postData = (s, Sent r) ∧
  route_delete_posts jwt_verify s token postId = (s, Sent r) ∧
  route_get_reports jwt_verify s token = (s, Sent r) ∧
  route_patch_reports_action jwt_verify s token action reportId userEmail commentId made
    = (s, Sent r) ∧
  route_patch_makeAdmin jwt_verify s token id = (s, Sent r) ∧
  route_get_posts_user_count jwt_verify s token email = reject r.
Proof.
  intros r Hbad. subst r.
  assert (Hgate : verifyJWT jwt_verify token =
            inl match token with
                | None | Some "" => Response 401 (Message "Unauthorized access")
                | Some _ => Response 403 (Message "Forbidden")
                end).
  { unfold verifyJWT. destruct token as [[|a t]|]; try done.
    by rewrite (Hbad (String a t)). }
  unfold route_post_posts, route_delete_posts, route_get_reports,
    route_patch_reports_action, route_patch_makeAdmin, route_get_posts_user_count,
    withAdmin, withJWT.
  by rewrite Hgate.
Qed.

Lemma unverified_requests_stop_at_the_gate_witness :
  route_delete_posts sample_jwt forum (Some "forged.jwt") (oid_text 1)
    = (forum, Sent (Response 403 (Message "Forbidden"))) ∧
  route_patch_makeAdmin sample_jwt forum None "000000000000000000000066"
    = (forum, Sent (Response 401 (Message "Unauthorized access"))).
Proof.
  split.
  - apply (unverified_requests_stop_at_the_gate sample_jwt forum (Some "forged.jwt")
             ∅ (oid_text 1) "" "" None None None None (λ _, 0%N)).
    intros t [= <-] _. reflexivity.
  - apply (unverified_requests_stop_at_the_gate sample_jwt forum None
             ∅ "" "000000000000000000000066" "" None None None None (λ _, 0%N)).
    intros t Ht. discriminate Ht.
Defined.

(** ** Promotion *)

(** When one record is the first match of two filters and the update keeps
    what the second filter looks at, the second filter finds the updated
    record afterwards. *)
Lemma updateOne_findOne_same (f g : doc → bool) (op : doc → option doc)
    (c c' : collection) (m : doc) :
  (∀ d d', op d = Some d' → g d' = g d) →
  findOne f c = Some m → findOne g c = Some m →
  updateOne f op c = Some c' →
  ∃ m', op m = Some m' ∧ findOne g c' = Some m'.
Proof.
  intros Hkeep. revert c'. induction c as [|d c IH]; simpl; intros c'; [done|].
  destruct (f d) eqn:Hf, (g d) eqn:Hg.
  - intros [= <-] _. destruct (op d) as [d'|] eqn:Hop; [|done].
    intros [= <-]. exists d'. split; [done|]. simpl.
    by rewrite (Hkeep _ _ Hop), Hg.
  - intros [= <-] Hfind.
    destruct (findOne_split _ _ _ Hfind) as (? & ? & _ & _ & Hgm). congruence.
  - intros Hfind [= <-].
    destruct (findOne_split _ _ _ Hfind) as (? & ? & _ & _ & Hfm). congruence.
  - intros Hff Hfg. destruct (updateOne f op c) as [c''|] eqn:Hupd; [|done].
    intros [= <-]. destruct (IH c'' Hff Hfg eq_refl) as (m' & Hop & Hfind).
    exists m'. split; [done|]. simpl. by rewrite Hg.
Qed.

(** X19. Promotion by an admin: the user record of the given well-formed id
    gets role ["admin"], all else kept.  If that record is the one its own
    email reaches, its owner passes the admin check from then on and
    [GET /role] reports ["admin"] for that email.  For a well-formed id that
    no user record carries nothing changes and the matched count is 0; for an
    id string that is not well-formed the answer is 500 "Failed to make admin"
    and nothing changes. *)
Theorem makeAdmin_grants_admin (jwt_verify : string → option doc) (s : store)
    (token : option string) (decoded : doc) (id : string) :
  verifyJWT jwt_verify token = inr decoded →
  verifyAdmin s decoded = None →
  let r := route_patch_makeAdmin jwt_verify s token id in
  (ObjectId id = None → r = (s, send_status 500 (Error "Failed to make admin"))) ∧
  (∀ U, ObjectId id = Some U →
    (findOne (by_id U) (users s) = None → r = (s, send (UpdateResult 0))) ∧
    (∀ u, findOne (by_id U) (users s) = Some u →
       ∃ pre suf, users s = pre ++ u :: suf ∧
         r = (set_users s (pre ++ <["role" := VStr "admin"]> u :: suf),
              send (UpdateResult 1)) ∧
         (findOne (by_field "email" (u !! "email")) (users s) = Some u →
          ∀ e, u !! "email" = Some (VStr e) → e ≠ "" →
            (∀ decoded', decoded' !! "email" = Some (VStr e) →
               verifyAdmin r.1 decoded' = None) ∧
            get_role r.1 (Some e) = Answer 200 (Role (Some (VStr "admin")))))).
Proof.
  intros Hjwt Hadmin r. subst r.
  unfold route_patch_makeAdmin, withAdmin, withJWT. rewrite Hjwt, Hadmin.
  unfold patch_makeAdmin, matchedCount. split; [by intros ->|].
  intros U ->. split.
  - intros Hnone. by rewrite Hnone, updateOne_None_found, set_users_id.
  - intros u Hfind. rewrite Hfind.
    destruct (findOne_split _ _ _ Hfind) as (pre & suf & Hus & Hpre & Hu).
    exists pre, suf. split; [done|].
    assert (Hupd : updateOne (by_id U) (set_field "role" (VStr "admin")) (users s)
                   = Some (pre ++ <["role" := VStr "admin"]> u :: suf)).
    { rewrite Hus. by rewrite updateOne_split. }
    rewrite Hupd. split; [done|].
    intros Hreach e He Hne.
    rewrite He in Hreach.
    assert (Hkeep : ∀ d d', set_field "role" (VStr "admin") d = Some d' →
              by_field "email" (Some (VStr e)) d' = by_field "email" (Some (VStr e)) d).
    { intros d d' [= <-]. by rewrite by_field_insert_ne. }
    destruct (updateOne_findOne_same _ _ _ _ _ _ Hkeep Hfind Hreach Hupd)
      as (u' & Hu' & Hfound).
    injection Hu' as <-. cbn [fst users set_users]. split.
    + intros decoded' Hd. unfold verifyAdmin. rewrite Hd. cbn [users set_users].
      rewrite Hfound. simpl. rewrite bool_decide_eq_false_2 by done. simpl.
      by rewrite lookup_insert_eq.
    + unfold get_role. destruct e as [|a e]; [done|]. cbn [users set_users].
      by rewrite Hfound, lookup_insert_eq.
Qed.

Lemma makeAdmin_grants_admin_witness :
  let r := route_patch_makeAdmin sample_jwt forum (Some "root.jwt")
             "000000000000000000000066" in
  route_patch_makeAdmin sample_jwt forum (Some "root.jwt") "bob"
    = (forum, send_status 500 (Error "Failed to make admin")) ∧
  verifyAdmin forum (credential "bob@forum.test")
    = Some (Response 403 (Message "Admin access only")) ∧
  verifyAdmin r.1 (credential "bob@forum.test") = None ∧
  get_role r.1 (Some "bob@forum.test") = Answer 200 (Role (Some (VStr "admin"))).
Proof.
  intros r.
  destruct (makeAdmin_grants_admin sample_jwt forum (Some "root.jwt")
              (credential "root@forum.test") "bob" eq_refl eq_refl) as [Hbad _].
  destruct (makeAdmin_grants_admin sample_jwt forum (Some "root.jwt")
              (credential "root@forum.test") "000000000000000000000066"
              eq_refl eq_refl) as [_ Hok].
  destruct (Hok 102%N eq_refl) as [_ Hfound].
  destruct (Hfound (<["_id" := VOid 102]> bob) eq_refl)
    as (pre & suf & _ & _ & Hgrant).
  destruct (Hgrant eq_refl "bob@forum.test" eq_refl) as [Hgate Hrole]; [done|].
  split; [by apply Hbad|]. split; [reflexivity|].
  split; [by apply Hgate | exact Hrole].
Defined.

(** ** Comments *)

(** X20. A comment posted on post [P] is stored with [postId] the ObjectId
    of [P] and with the server's time as [createdAt], whatever [createdAt] the
    body carried; afterwards [GET /comment/P] lists it after the comments it
    listed before, and the listing of every other post is unchanged. *)
Theorem comment_round_trip (s s' : store) (P : N) (restData : doc) (now : Z)
    (i : value) :
  restData !! "postId" = None →
  post_post_comment s P restData now = (s', send_status 201 (InsertResult i)) →
  let new := <["_id" := i]>
               (<["createdAt" := VNum now]> (restData ∪ {[ "postId" := VOid P ]})) in
  new !! "postId" = Some (VOid P) ∧
  new !! "createdAt" = Some (VNum now) ∧
  s' = set_comments s (comments s ++ [new]) ∧
  get_comment s' P
    = Answer 200 (Plain (Sorted "createdAt" true
        (find_all (by_field "postId" (Some (VOid P))) (comments s) ++ [new]))) ∧
  (∀ Q, Q ≠ P → get_comment s' Q = get_comment s Q).
Proof.
  intros Hnopost Hrun. cbv zeta.
  set (new := <["_id" := i]> _).
  assert (Hpost : new !! "postId" = Some (VOid P)).
  { unfold new. rewrite !lookup_insert_ne by done.
    by rewrite lookup_union_r, lookup_singleton_eq. }
  assert (Hs' : s' = set_comments s (comments s ++ [new])).
  { unfold post_post_comment in Hrun.
    destruct (insertOne _ (comments s)) as [[j cs]|] eqn:Hins; [|done].
    injection Hrun as <- <-. by rewrite (insertOne_app _ _ _ _ Hins). }
  split; [done|]. split.
  { unfold new. by rewrite lookup_insert_ne, lookup_insert_eq. }
  split; [done|]. rewrite Hs'. unfold get_comment. cbn [comments set_comments].
  split.
  - rewrite find_all_app. cbn [find_all]. unfold by_field at 2.
    by rewrite Hpost, field_matches_refl.
  - intros Q HQ. rewrite find_all_app. cbn [find_all]. unfold by_field at 2.
    rewrite Hpost. simpl. rewrite bool_decide_eq_false_2 by congruence.
    by rewrite app_nil_r.
Qed.

Lemma comment_round_trip_witness :
  let body : doc := {[ "text" := VStr "fourth"; "createdAt" := VNum 1 ]} in
  let r := post_post_comment forum 2 body 5000 in
  let new := <["_id" := VOid 14]>
               (<["createdAt" := VNum 5000]> (body ∪ {[ "postId" := VOid 2 ]})) in
  new !! "createdAt" = Some (VNum 5000) ∧
  get_comment r.1 2
    = Answer 200 (Plain (Sorted "createdAt" true
        (find_all (by_field "postId" (Some (VOid 2))) (comments forum) ++ [new]))).
Proof.
  intros body r new.
  destruct (comment_round_trip forum r.1 2 body 5000 (VOid 14))
    as (_ & Hcreated & _ & Hlist & _).
  - reflexivity.
  - vm_compute. reflexivity.
  - split; [exact Hcreated | exact Hlist].
Defined.

(** ** The earlier registration handler *)

Lemma indexjs_post_users_store_cases (s : store) (userData : doc) (ip now : string) :
  let r := IndexJs.post_users s userData ip now in
  r.1 = s ∨
  (∃ us, r.1 = set_users s us ∧
     updateOne (by_field "email" (userData !! "email"))
       (set_fields2 "lastSignIn" (VStr now) "lastSignInIp" (VStr ip)) (users s) = Some us) ∨
  (∃ i, findOne (by_field "email" (userData !! "email")) (users s) = None ∧
        findOne (by_field "username" (userData !! "username")) (users s) = None ∧
        r = (set_users s (users s ++ [<["_id" := i]> (<["lastSignInIp" := VStr ip]> userData)]),
             send_status 201 (UserSaved i))).
Proof.
  unfold IndexJs.post_users.
  destruct (findOne (by_field "username" _) (users s)) as [v|] eqn:Hu.
  { rewrite (bool_decide_eq_true_2 (is_Some (Some v))) by by eexists. by left. }
  rewrite (bool_decide_eq_false_2 (is_Some None)) by by intros [? ?].
  destruct (findOne (by_field "email" _) (users s)) as [u|] eqn:He.
  - rewrite (bool_decide_eq_true_2 (is_Some (Some u))) by by eexists.
    destruct (updateOne _ _ (users s)) as [us|] eqn:Hupd; [|by left].
    right. left. by exists us.
  - rewrite (bool_decide_eq_false_2 (is_Some None)) by by intros [? ?].
    destruct (insertOne _ (users s)) as [[i us]|] eqn:Hins; [|by left].
    right. right. exists i. by rewrite (insertOne_app _ _ _ _ Hins).
Qed.

(** X21. The registration handler of [src/index.js] keeps emails and
    usernames unique as well, and it never writes when the username is taken:
    a record is inserted only when neither lookup finds anything, and a
    sign-in update only happens under a username that no record holds. *)
Theorem indexjs_post_users_keeps_unique (s : store) (userData : doc) (ip now : string) :
  unique_on "email" (users s) → unique_on "username" (users s) →
  let s' := (IndexJs.post_users s userData ip now).1 in
  unique_on "email" (users s') ∧ unique_on "username" (users s') ∧
  (is_Some (findOne (by_field "username" (userData !! "username")) (users s)) → s' = s).
Proof.
  intros He Hu s'. subst s'.
  assert (Htaken : is_Some (findOne (by_field "username" (userData !! "username")) (users s)) →
            (IndexJs.post_users s userData ip now).1 = s).
  { intros [v Hv]. unfold IndexJs.post_users. rewrite Hv.
    rewrite (bool_decide_eq_true_2 (is_Some (Some v))) by by eexists.
    done. }
  split; [|split; [|exact Htaken]];
    destruct (indexjs_post_users_store_cases s userData ip now)
      as [Hs | [(us & Hs & Hupd) | (i & Hfe & Hfu & Hr)]].
  - by rewrite Hs.
  - rewrite Hs. simpl. eapply unique_on_update; [|exact Hupd|done].
    intros d d'. by apply sign_in_keeps_field.
  - rewrite Hr. simpl. apply unique_on_insert; [done|].
    by rewrite !lookup_insert_ne.
  - by rewrite Hs.
  - rewrite Hs. simpl. eapply unique_on_update; [|exact Hupd|done].
    intros d d'. by apply sign_in_keeps_field.
  - rewrite Hr. simpl. apply unique_on_insert; [done|].
    by rewrite !lookup_insert_ne.
Qed.

Lemma indexjs_post_users_keeps_unique_witness :
  let s' := (IndexJs.post_users forum mixed_registration
               "203.0.113.7" "2025-07-01T10:00:00.000Z").1 in
  unique_on "email" (users s') ∧ unique_on "username" (users s') ∧ s' = forum.
Proof.
  intros s'.
  destruct (indexjs_post_users_keeps_unique forum mixed_registration
              "203.0.113.7" "2025-07-01T10:00:00.000Z")
    as (He & Hu & Hkept).
  - apply unique_on_NoDup, (bool_decide_unpack _). vm_compute. exact I.
  - apply unique_on_NoDup, (bool_decide_unpack _). vm_compute. exact I.
  - split; [exact He|]. split; [exact Hu|].
    apply Hkept. exists (<["_id" := VOid 102]> bob). reflexivity.
Defined.
